(** * NagarikMitra: the report store of [App.tsx]

    A shallow embedding of the civic-report store implemented by the [App]
    component (first document of [src/App.tsx]): the report records, the
    [AsyncStorage]-backed list, and the handlers [loadReports], [saveReports],
    [handleSubmit], [advanceStatus], [assignDept], [deleteReport], the
    clear-all button and the derived [filteredReports].

    JavaScript strings are sequences of UTF-16 code units, numbers are IEEE
    doubles, [async] handlers are computations over the React state and the
    device storage that may throw and that leave a log of alerts and console
    warnings. *)

From Stdlib Require Import ZArith List Ascii String DecimalString PrimFloat FloatOps Uint63.
From Stdlib Require DecimalZ DecimalPos.
From stdpp Require Import gmap list.

Local Open Scope Z_scope.

(** ** JavaScript values *)

(** A string is its list of UTF-16 code units. *)
Abbreviation jsstring := (list N).

(** A string literal of the source (ASCII only). *)
Definition lit (s : string) : jsstring :=
  List.map N_of_ascii (list_ascii_of_string s).

(** [a === b] on strings. *)
Definition strict_eq (a b : jsstring) : bool := bool_decide (a = b).
Infix "===" := strict_eq (at level 70, no associativity).

(** Strict equality of a possibly absent string field with a string. *)
Definition field_eq (o : option jsstring) (b : jsstring) : bool :=
  match o with
  | Some a => a === b
  | None => false
  end.

(** Truthiness: the empty string, [null] and [undefined] are falsy. *)
Definition truthy (s : jsstring) : bool :=
  match s with
  | [] => false
  | _ :: _ => true
  end.

Definition truthy_opt (o : option jsstring) : bool :=
  match o with
  | Some s => truthy s
  | None => false
  end.

(** [o || d] for a possibly absent string [o]. *)
Definition or_default (o : option jsstring) (d : jsstring) : jsstring :=
  match o with
  | Some s => if truthy s then s else d
  | None => d
  end.

(** ECMAScript WhiteSpace and LineTerminator code units, the ones
    [String.prototype.trim] strips. *)
Definition isWhiteSpace (c : N) : bool :=
  ((9 <=? c) && (c <=? 13) || (c =? 32) || (c =? 160) || (c =? 5760)
   || (8192 <=? c) && (c <=? 8202) || (c =? 8232) || (c =? 8233)
   || (c =? 8239) || (c =? 8287) || (c =? 12288) || (c =? 65279))%N.

Fixpoint trimStart (s : jsstring) : jsstring :=
  match s with
  | [] => []
  | c :: s' => if isWhiteSpace c then trimStart s' else s
  end.

Definition trimEnd (s : jsstring) : jsstring := rev (trimStart (rev s)).

Definition trim (s : jsstring) : jsstring := trimEnd (trimStart s).

(** [n.toString()] for an integral number such as [Date.now()]. *)
Definition Number_toString (n : Z) : jsstring :=
  lit (NilZero.string_of_int (Z.to_int n)).

(** [arr.indexOf(x)]: first index holding [x], or [-1]. *)
Fixpoint indexOf_from (arr : list jsstring) (x : jsstring) (i : Z) : Z :=
  match arr with
  | [] => -1
  | y :: arr' => if y === x then i else indexOf_from arr' x (i + 1)
  end.

Definition indexOf (arr : list jsstring) (x : jsstring) : Z := indexOf_from arr x 0.

(** [arr[k]]: [undefined] outside the array. *)
Definition index {A : Type} (arr : list A) (k : Z) : option A :=
  if k <? 0 then None else arr !! Z.to_nat k.

(** ** Reports *)

Record Location := { latitude : float; longitude : float }.

Module Report.
(** A report object.  [photoUri] and [location] are copied from the form
    state ([string | null], [{latitude, longitude} | null]); [status] and
    [department] are absent on reports stored by the earlier version of
    the app, which is why the code reads [r.status || 'Reported']. *)
Record t := mk {
  id : jsstring;
  photoUri : option jsstring;
  location : option Location;
  description : jsstring;
  createdAt : jsstring;
  status : option jsstring;
  department : option jsstring
}.

(** [{ ...r, status: next }] *)
Definition with_status (next : option jsstring) (r : t) : t :=
  {| id := id r; photoUri := photoUri r; location := location r;
     description := description r; createdAt := createdAt r;
     status := next; department := department r |}.

(** [{ ...r, department: dept }] *)
Definition with_department (dept : jsstring) (r : t) : t :=
  {| id := id r; photoUri := photoUri r; location := location r;
     description := description r; createdAt := createdAt r;
     status := status r; department := Some dept |}.
End Report.

Abbreviation Report := Report.t.

Definition REPORTS_KEY : jsstring := lit "CIVIC_REPORTS".

(** ** The state the handlers act on *)

Inductive Mode := citizen | admin.

Module State.
(** The [useState] cells of [App], and the device's [AsyncStorage]. *)
Record t := mk {
  photoUri : option jsstring;
  location : option Location;
  description : jsstring;
  reports : list Report;
  loading : bool;
  mode : Mode;
  filter : jsstring;
  storage : gmap jsstring jsstring
}.

Definition initial (disk : gmap jsstring jsstring) : t :=
  {| photoUri := None; location := None; description := [];
     reports := []; loading := false; mode := citizen;
     filter := lit "All"; storage := disk |}.
End State.

Abbreviation State := State.t.

Definition setPhotoUri (v : option jsstring) (w : State) : State :=
  {| State.photoUri := v; State.location := State.location w;
     State.description := State.description w; State.reports := State.reports w;
     State.loading := State.loading w; State.mode := State.mode w;
     State.filter := State.filter w; State.storage := State.storage w |}.

Definition setLocation (v : option Location) (w : State) : State :=
  {| State.photoUri := State.photoUri w; State.location := v;
     State.description := State.description w; State.reports := State.reports w;
     State.loading := State.loading w; State.mode := State.mode w;
     State.filter := State.filter w; State.storage := State.storage w |}.

Definition setDescription (v : jsstring) (w : State) : State :=
  {| State.photoUri := State.photoUri w; State.location := State.location w;
     State.description := v; State.reports := State.reports w;
     State.loading := State.loading w; State.mode := State.mode w;
     State.filter := State.filter w; State.storage := State.storage w |}.

Definition setReports (v : list Report) (w : State) : State :=
  {| State.photoUri := State.photoUri w; State.location := State.location w;
     State.description := State.description w; State.reports := v;
     State.loading := State.loading w; State.mode := State.mode w;
     State.filter := State.filter w; State.storage := State.storage w |}.

Definition setFilter (v : jsstring) (w : State) : State :=
  {| State.photoUri := State.photoUri w; State.location := State.location w;
     State.description := State.description w; State.reports := State.reports w;
     State.loading := State.loading w; State.mode := State.mode w;
     State.filter := v; State.storage := State.storage w |}.

Definition setStorage (v : gmap jsstring jsstring) (w : State) : State :=
  {| State.photoUri := State.photoUri w; State.location := State.location w;
     State.description := State.description w; State.reports := State.reports w;
     State.loading := State.loading w; State.mode := State.mode w;
     State.filter := State.filter w; State.storage := v |}.

(** ** Handlers as computations *)

(** What a handler can throw: a rejected storage call, or an exception of
    [JSON.stringify] / [JSON.parse]. *)
Inductive Exn := StorageError | JSONError.

(** What a handler shows. *)
Inductive Effect :=
| Alert_alert (title message : jsstring)
| Alert_prompt (title message : jsstring)
| console_warn (message : jsstring) (e : Exn).

(** A computation runs on a state and ends either normally with a value or
    by throwing; either way it leaves a state and a log. *)
Definition M (A : Type) : Type := State -> (Exn + A) * State * list Effect.

Definition outcome {A} (r : (Exn + A) * State * list Effect) : Exn + A := r.1.1.
Definition after {A} (r : (Exn + A) * State * list Effect) : State := r.1.2.
Definition shown {A} (r : (Exn + A) * State * list Effect) : list Effect := r.2.

#[global] Instance M_ret : MRet M := fun A a w => (inr a, w, []).

#[global] Instance M_bind : MBind M := fun A B f m w =>
  match m w with
  | (inl e, w1, log1) => (inl e, w1, log1)
  | (inr a, w1, log1) =>
      match f a w1 with
      | (r, w2, log2) => (r, w2, log1 ++ log2)
      end
  end.

Definition throw {A} (e : Exn) : M A := fun w => (inl e, w, []).

(** [try { body } catch (e) { handler }] *)
Definition try_catch {A} (body : M A) (handler : Exn -> M A) : M A := fun w =>
  match body w with
  | (inl e, w1, log1) =>
      match handler e w1 with
      | (r, w2, log2) => (r, w2, log1 ++ log2)
      end
  | (inr a, w1, log1) => (inr a, w1, log1)
  end.

Definition get : M State := fun w => (inr w, w, []).
Definition modify (f : State -> State) : M unit := fun w => (inr tt, f w, []).
Definition tell (e : Effect) : M unit := fun w => (inr tt, w, [e]).

(** A call that throws when it has no result. *)
Definition orThrow {A} (e : Exn) (o : option A) : M A :=
  match o with
  | Some a => mret a
  | None => throw e
  end.

(** ** The runtime the handlers call into *)

Module JSON.
(** [JSON.stringify] and [JSON.parse] on arrays of reports; [None] is a
    thrown exception.  The codec belongs to the JavaScript runtime, not to
    the app, so the handlers take it as given.  The list is typed: a text
    that holds something else than an array of report objects has no
    counterpart here. *)
Record api := mk {
  stringify : list Report -> option jsstring;
  parse : jsstring -> option (list Report)
}.
End JSON.

(** What the outside world answers during one handler call: the clock read
    by [Date.now()], the text of [new Date().toISOString()], and whether the
    storage calls resolve or reject. *)
Record Env := {
  Date_now : Z;
  Date_toISOString : jsstring;
  setItem_ok : bool;
  getItem_ok : bool
}.

Section Handlers.
Context (J : JSON.api) (env : Env).

(** [await AsyncStorage.getItem(key)] *)
Definition AsyncStorage_getItem (key : jsstring) : M (option jsstring) :=
  if getItem_ok env
  then w ← get; mret (State.storage w !! key)
  else throw StorageError.

(** [await AsyncStorage.setItem(key, value)] *)
Definition AsyncStorage_setItem (key value : jsstring) : M unit :=
  if setItem_ok env
  then w ← get; modify (setStorage (<[key := value]> (State.storage w)))
  else throw StorageError.

Definition loadReports : M unit :=
  try_catch
    (data ← AsyncStorage_getItem REPORTS_KEY;
     match data with
     | Some text =>
         if truthy text
         then parsed ← orThrow JSONError (JSON.parse J text);
              modify (setReports parsed)
         else mret tt
     | None => mret tt
     end)
    (fun e => tell (console_warn (lit "Failed to load reports:") e)).

Definition saveReports (newReports : list Report) : M unit :=
  try_catch
    (modify (setReports newReports);;
     text ← orThrow JSONError (JSON.stringify J newReports);
     AsyncStorage_setItem REPORTS_KEY text)
    (fun e => tell (console_warn (lit "Failed to save reports:") e)).

(** An [async] function runs up to its first [await] when it is called, and
    the rest once the awaited call has settled; a caller that does not
    [await] it goes on in between.  [saveReports] up to its [await]: the
    list is published and its text made and handed to
    [AsyncStorage.setItem]; [None] when making the text threw, which the
    [catch] has logged by then. *)
Definition saveReports_begin (newReports : list Report) : M (option jsstring) :=
  try_catch
    (modify (setReports newReports);;
     text ← orThrow JSONError (JSON.stringify J newReports);
     mret (Some text))
    (fun e => tell (console_warn (lit "Failed to save reports:") e);; mret None).

(** [saveReports] from its [await] on: the storage answers. *)
Definition saveReports_settle (pending : option jsstring) : M unit :=
  match pending with
  | Some text =>
      try_catch
        (AsyncStorage_setItem REPORTS_KEY text)
        (fun e => tell (console_warn (lit "Failed to save reports:") e))
  | None => mret tt
  end.

(** The guard of [handleSubmit]:
    [!photoUri || !location || !description.trim()]. *)
Definition incomplete (w : State) : bool :=
  negb (truthy_opt (State.photoUri w))
  || negb (bool_decide (is_Some (State.location w)))
  || negb (truthy (trim (State.description w))).

Definition Incomplete_alert : Effect :=
  Alert_alert (lit "Incomplete")
    (lit "Please add a photo, capture location, and enter a description.").

Definition Submitted_alert : Effect :=
  Alert_alert (lit "Submitted")
    (lit "Report submitted " ++ [8212%N] ++ lit " thank you for helping your city.").

(** The report object [handleSubmit] builds from the form. *)
Definition newReport (w : State) : Report :=
  {| Report.id := Number_toString (Date_now env);
     Report.photoUri := State.photoUri w;
     Report.location := State.location w;
     Report.description := State.description w;
     Report.createdAt := Date_toISOString env;
     Report.status := Some (lit "Reported");
     Report.department := Some (lit "Unassigned") |}.

Definition handleSubmit : M unit :=
  w ← get;
  if incomplete w
  then tell Incomplete_alert
  else
    let newReports := newReport w :: State.reports w in
    saveReports newReports;;
    modify (setPhotoUri None);;
    modify (setLocation None);;
    modify (setDescription []);;
    tell Submitted_alert.

Definition order : list jsstring :=
  [lit "Reported"; lit "Acknowledged"; lit "In Progress"; lit "Resolved"].

(** The body of the [map] callback of [advanceStatus] for a matching
    report. *)
Definition advance (r : Report) : Report :=
  let idx := indexOf order (or_default (Report.status r) (lit "Reported")) in
  let next := index order (Z.min (idx + 1) (Z.of_nat (length order) - 1)) in
  Report.with_status next r.

Definition advanceStatus (id : jsstring) : M unit :=
  w ← get;
  let updated :=
    (fun r => if Report.id r === id then advance r else r) <$> State.reports w in
  saveReports updated.

Definition assignDept (id dept : jsstring) : M unit :=
  w ← get;
  let updated :=
    (fun r => if Report.id r === id then Report.with_department dept r else r)
      <$> State.reports w in
  saveReports updated.

(** [assignDept] up to the [await] of its [saveReports]. *)
Definition assignDept_begin (id dept : jsstring) : M (option jsstring) :=
  w ← get;
  let updated :=
    (fun r => if Report.id r === id then Report.with_department dept r else r)
      <$> State.reports w in
  saveReports_begin updated.

(** The Assign button of a report row.  Where [Alert.prompt] exists the
    callback gets the text the admin entered ([None]: nothing entered);
    elsewhere the fallback assigns a fixed department.  The fallback does
    not [await] its [assignDept]: the alert comes when the call has reached
    its [await], and the storage answers after it. *)
Definition onAssignPress (hasPrompt : bool) (id : jsstring) (txt : option jsstring) : M unit :=
  if hasPrompt
  then
    tell (Alert_prompt (lit "Assign Department") (lit "Enter department"));;
    match txt with
    | Some t =>
        if truthy t && truthy (trim t)
        then assignDept id (trim t)
        else mret tt
    | None => mret tt
    end
  else
    pending ← assignDept_begin id (lit "Public Works");
    tell (Alert_alert (lit "Assigned") (lit "Assigned to Public Works"));;
    saveReports_settle pending.

(** [deleteReport] asks first; [confirmed] tells whether the Delete button
    of the dialog was pressed. *)
Definition deleteReport (id : jsstring) (confirmed : bool) : M unit :=
  w ← get;
  tell (Alert_alert (lit "Delete report") (lit "Are you sure?"));;
  if confirmed
  then
    let updated := List.filter (fun r => negb (Report.id r === id)) (State.reports w) in
    saveReports updated
  else mret tt.

(** The clear-all button, likewise behind a dialog. *)
Definition clearAll (confirmed : bool) : M unit :=
  tell (Alert_alert (lit "Clear all") (lit "Remove all stored reports?"));;
  if confirmed then saveReports [] else mret tt.

End Handlers.

(** The Advance button pressed once per element of [envs]. *)
Fixpoint advanceRepeatedly (J : JSON.api) (envs : list Env) (id : jsstring) : M unit :=
  match envs with
  | [] => mret tt
  | env :: envs' => advanceStatus J env id;; advanceRepeatedly J envs' id
  end.

(** [filteredReports], recomputed from the state at every render. *)
Definition filteredReports (w : State) : list Report :=
  List.filter
    (fun r => if State.filter w === lit "All" then true
              else field_eq (Report.status r) (State.filter w))
    (State.reports w).

(** ** A reference JSON codec

    An executable rendering of the runtime's [JSON.stringify] and
    [JSON.parse] on the part of JSON the report store uses, to run the
    handlers on concrete data.  Numbers are covered where they are integers
    of magnitude at most 2^53, whose JSON text is their decimal numeral;
    other finite numbers are left out ([None]). *)

Module RefJSON.

#[local] Set Warnings "-register-all".

Inductive value :=
| Null
| Bool (b : bool)
| Num (x : float)
| Str (s : jsstring)
| Arr (elements : list value)
| Obj (members : list (jsstring * value)).

Definition ch (a : ascii) : N := N_of_ascii a.

Definition hexDigit (d : N) : N :=
  (if d <? 10 then ch "0" + d else ch "a" + (d - 10))%N.

(** [\uXXXX] *)
Definition escape_u (c : N) : jsstring :=
  [ch "\"; ch "u"; hexDigit (c / 4096 mod 16); hexDigit (c / 256 mod 16);
   hexDigit (c / 16 mod 16); hexDigit (c mod 16)]%N.

Definition escape (c : N) : jsstring :=
  if (c =? 8)%N then lit "\b"
  else if (c =? 9)%N then lit "\t"
  else if (c =? 10)%N then lit "\n"
  else if (c =? 12)%N then lit "\f"
  else if (c =? 13)%N then lit "\r"
  else if (c =? 34)%N then [ch "\"; 34%N]
  else if (c =? 92)%N then lit "\\"
  else if (c <? 32)%N then escape_u c
  else [c].

Definition isHighSurrogate (c : N) : bool := ((55296 <=? c) && (c <=? 56319))%N.
Definition isLowSurrogate (c : N) : bool := ((56320 <=? c) && (c <=? 57343))%N.

(** The characters of a quoted string; lone surrogates are escaped. *)
Fixpoint quote_units (s : jsstring) : jsstring :=
  match s with
  | [] => []
  | c :: s' =>
      if isHighSurrogate c then
        match s' with
        | d :: s'' =>
            if isLowSurrogate d then c :: d :: quote_units s''
            else escape_u c ++ quote_units s'
        | [] => escape_u c
        end
      else if isLowSurrogate c then escape_u c ++ quote_units s'
      else escape c ++ quote_units s'
  end.

Definition quote (s : jsstring) : jsstring := 34%N :: quote_units s ++ [34%N].

(** The integer a float is, when it is one of magnitude at most 2^53. *)
Definition integral (x : float) : option Z :=
  match Prim2SF x with
  | SpecFloat.S754_zero _ => Some 0
  | SpecFloat.S754_finite s m e =>
      let n := if 0 <=? e then Some (Z.pos m * 2 ^ e)
               else if Z.pos m mod 2 ^ (- e) =? 0 then Some (Z.pos m / 2 ^ (- e))
               else None in
      n ← n;
      if n <=? 2 ^ 53 then Some (if s then - n else n) else None
  | _ => None
  end.

Definition write_number (x : float) : option jsstring :=
  match Prim2SF x with
  | SpecFloat.S754_nan | SpecFloat.S754_infinity _ => Some (lit "null")
  | _ => Number_toString <$> integral x
  end.

Definition comma_join (parts : list jsstring) : jsstring :=
  match parts with
  | [] => []
  | p :: ps => p ++ concat (List.map (fun q => ch "," :: q) ps)
  end.

Fixpoint write (v : value) : option jsstring :=
  match v with
  | Null => Some (lit "null")
  | Bool b => Some (if b then lit "true" else lit "false")
  | Num x => write_number x
  | Str s => Some (quote s)
  | Arr elements =>
      parts ← mapM write elements;
      Some (ch "[" :: comma_join parts ++ [ch "]"])
  | Obj members =>
      parts ← mapM (fun kv => text ← write kv.2; Some (quote kv.1 ++ ch ":" :: text)) members;
      Some (ch "{" :: comma_join parts ++ [ch "}"])
  end.

Definition encode_opt_string (o : option jsstring) : value :=
  match o with
  | Some s => Str s
  | None => Null
  end.

Definition encode_location (o : option Location) : value :=
  match o with
  | Some l => Obj [(lit "latitude", Num (latitude l)); (lit "longitude", Num (longitude l))]
  | None => Null
  end.

(** An absent [status] or [department] is an undefined property, which
    [JSON.stringify] omits. *)
Definition encode_optional (key : jsstring) (o : option jsstring) : list (jsstring * value) :=
  match o with
  | Some s => [(key, Str s)]
  | None => []
  end.

Definition encode (r : Report) : value :=
  Obj ([(lit "id", Str (Report.id r));
        (lit "photoUri", encode_opt_string (Report.photoUri r));
        (lit "location", encode_location (Report.location r));
        (lit "description", Str (Report.description r));
        (lit "createdAt", Str (Report.createdAt r))]
       ++ encode_optional (lit "status") (Report.status r)
       ++ encode_optional (lit "department") (Report.department r)).

Definition stringify (l : list Report) : option jsstring :=
  write (Arr (List.map encode l)).

(** *** Reading *)

Definition isJSONSpace (c : N) : bool :=
  ((c =? 32) || (c =? 9) || (c =? 10) || (c =? 13))%N.

Fixpoint skip_ws (s : jsstring) : jsstring :=
  match s with
  | c :: s' => if isJSONSpace c then skip_ws s' else s
  | [] => []
  end.

(** [expect kw s]: what follows the keyword [kw] at the head of [s]. *)
Fixpoint expect (kw s : jsstring) : option jsstring :=
  match kw, s with
  | [], _ => Some s
  | k :: kw', c :: s' => if (k =? c)%N then expect kw' s' else None
  | _ :: _, [] => None
  end.

Definition isDigit (c : N) : bool := ((48 <=? c) && (c <=? 57))%N.

Definition hexValue (c : N) : option N :=
  (if isDigit c then Some (c - 48)
   else if (97 <=? c) && (c <=? 102) then Some (c - 87)
   else if (65 <=? c) && (c <=? 70) then Some (c - 55)
   else None)%N.

Definition unescape_u (s : jsstring) : option (N * jsstring) :=
  match s with
  | a :: b :: c :: d :: s' =>
      a ← hexValue a; b ← hexValue b; c ← hexValue c; d ← hexValue d;
      Some (((a * 16 + b) * 16 + c) * 16 + d, s')%N
  | _ => None
  end.

(** The characters after an opening quote, up to the closing one. *)
Fixpoint read_string (fuel : nat) (s : jsstring) : option (jsstring * jsstring) :=
  match fuel, s with
  | S fuel', c :: s' =>
      if (c =? 34)%N then Some ([], s')
      else if (c <? 32)%N then None
      else if (c =? 92)%N then
        match s' with
        | e :: s'' =>
            unit_rest ←
              (if (e =? 34)%N || (e =? 92)%N || (e =? 47)%N then Some (e, s'')
               else if (e =? ch "b")%N then Some (8, s'')
               else if (e =? ch "f")%N then Some (12, s'')
               else if (e =? ch "n")%N then Some (10, s'')
               else if (e =? ch "r")%N then Some (13, s'')
               else if (e =? ch "t")%N then Some (9, s'')
               else if (e =? ch "u")%N then unescape_u s''
               else None)%N;
            more ← read_string fuel' unit_rest.2;
            Some (unit_rest.1 :: more.1, more.2)
        | [] => None
        end
      else
        more ← read_string fuel' s';
        Some (c :: more.1, more.2)
  | _, _ => None
  end.

Fixpoint read_digits (s : jsstring) (acc : Z) : Z * jsstring :=
  match s with
  | c :: s' => if isDigit c then read_digits s' (acc * 10 + Z.of_N (c - 48)) else (acc, s)
  | [] => (acc, [])
  end.

Definition float_of_integer (negative : bool) (n : Z) : option float :=
  if n <=? 2 ^ 53
  then let x := PrimFloat.of_uint63 (Uint63.of_Z n) in
       Some (if negative then (- x)%float else x)
  else None.

(** An integer numeral; a fraction or an exponent is left out. *)
Definition read_number (s : jsstring) : option (float * jsstring) :=
  let negative := match s with c :: _ => (c =? ch "-")%N | [] => false end in
  let s := if negative then tl s else s in
  match s with
  | c :: s' =>
      if isDigit c then
        let '(n, rest) := read_digits s 0 in
        let leadingZero := (c =? 48)%N && bool_decide (rest <> s') in
        let continued :=
          match rest with
          | d :: _ => (d =? ch ".")%N || (d =? ch "e")%N || (d =? ch "E")%N
          | [] => false
          end in
        if leadingZero || continued then None
        else x ← float_of_integer negative n; Some (x, rest)
      else None
  | [] => None
  end.

Fixpoint read_value (fuel : nat) (s : jsstring) : option (value * jsstring) :=
  match fuel with
  | O => None
  | S fuel' =>
      match skip_ws s with
      | [] => None
      | c :: s' =>
          if (c =? ch "n")%N then rest ← expect (lit "ull") s'; Some (Null, rest)
          else if (c =? ch "t")%N then rest ← expect (lit "rue") s'; Some (Bool true, rest)
          else if (c =? ch "f")%N then rest ← expect (lit "alse") s'; Some (Bool false, rest)
          else if (c =? 34)%N then
            str ← read_string fuel' s'; Some (Str str.1, str.2)
          else if (c =? ch "[")%N then
            match skip_ws s' with
            | d :: s'' =>
                if (d =? ch "]")%N then Some (Arr [], s'')
                else els ← read_elements fuel' s'; Some (Arr els.1, els.2)
            | [] => None
            end
          else if (c =? ch "{")%N then
            match skip_ws s' with
            | d :: s'' =>
                if (d =? ch "}")%N then Some (Obj [], s'')
                else ms ← read_members fuel' s'; Some (Obj ms.1, ms.2)
            | [] => None
            end
          else
            num ← read_number (c :: s'); Some (Num num.1, num.2)
      end
  end
with read_elements (fuel : nat) (s : jsstring) : option (list value * jsstring) :=
  match fuel with
  | O => None
  | S fuel' =>
      v ← read_value fuel' s;
      match skip_ws v.2 with
      | c :: s' =>
          if (c =? ch ",")%N then
            more ← read_elements fuel' s'; Some (v.1 :: more.1, more.2)
          else if (c =? ch "]")%N then Some ([v.1], s')
          else None
      | [] => None
      end
  end
with read_members (fuel : nat) (s : jsstring) : option (list (jsstring * value) * jsstring) :=
  match fuel with
  | O => None
  | S fuel' =>
      match skip_ws s with
      | q :: s1 =>
          if (q =? 34)%N then
            key ← read_string fuel' s1;
            match skip_ws key.2 with
            | colon :: s2 =>
                if (colon =? ch ":")%N then
                  v ← read_value fuel' s2;
                  match skip_ws v.2 with
                  | c :: s' =>
                      if (c =? ch ",")%N then
                        more ← read_members fuel' s';
                        Some ((key.1, v.1) :: more.1, more.2)
                      else if (c =? ch "}")%N then Some ([(key.1, v.1)], s')
                      else None
                  | [] => None
                  end
                else None
            | [] => None
            end
          else None
      | [] => None
      end
  end.

(** The value of a property; of a repeated key the last one counts. *)
Definition property (key : jsstring) (members : list (jsstring * value)) : option value :=
  snd <$> List.find (fun kv => kv.1 === key) (rev members).

Definition decode_string (members : list (jsstring * value)) (key : jsstring) : option jsstring :=
  match property key members with
  | Some (Str s) => Some s
  | _ => None
  end.

(** A string, or nothing where the property is [null] or missing. *)
Definition decode_opt_string (members : list (jsstring * value)) (key : jsstring)
  : option (option jsstring) :=
  match property key members with
  | Some (Str s) => Some (Some s)
  | Some Null | None => Some None
  | _ => None
  end.

Definition decode_number (members : list (jsstring * value)) (key : jsstring) : option float :=
  match property key members with
  | Some (Num x) => Some x
  | _ => None
  end.

Definition decode_location (members : list (jsstring * value)) (key : jsstring)
  : option (option Location) :=
  match property key members with
  | Some (Obj coords) =>
      lat ← decode_number coords (lit "latitude");
      lng ← decode_number coords (lit "longitude");
      Some (Some {| latitude := lat; longitude := lng |})
  | Some Null | None => Some None
  | _ => None
  end.

(** Objects that are not reports (a field of another type) are left out. *)
Definition decode (v : value) : option Report :=
  match v with
  | Obj members =>
      id ← decode_string members (lit "id");
      photoUri ← decode_opt_string members (lit "photoUri");
      location ← decode_location members (lit "location");
      description ← decode_string members (lit "description");
      createdAt ← decode_string members (lit "createdAt");
      status ← decode_opt_string members (lit "status");
      department ← decode_opt_string members (lit "department");
      Some (Report.mk id photoUri location description createdAt status department)
  | _ => None
  end.

Definition parse (text : jsstring) : option (list Report) :=
  v ← read_value (S (length text)) text;
  match v.1, skip_ws v.2 with
  | Arr elements, [] => mapM decode elements
  | _, _ => None
  end.

Definition codec : JSON.api := JSON.mk stringify parse.

End RefJSON.

(** ** The mutating operations, and what each makes of the list *)

(** The five ways the admin and the citizen change the list.  [Remove] and
    [Clear] are the dialogs answered with their destructive button. *)
Inductive Mutation :=
| Submit
| Advance (id : jsstring)
| Assign (id dept : jsstring)
| Remove (id : jsstring)
| Clear.

Definition perform (J : JSON.api) (env : Env) (op : Mutation) : M unit :=
  match op with
  | Submit => handleSubmit J env
  | Advance id => advanceStatus J env id
  | Assign id dept => assignDept J env id dept
  | Remove id => deleteReport J env id true
  | Clear => clearAll J env true
  end.

(** The list each operation hands to [saveReports]; a submit that the guard
    rejects hands over nothing and the list stays. *)
Definition nextReports (env : Env) (op : Mutation) (w : State) : list Report :=
  match op with
  | Submit =>
      if incomplete w then State.reports w
      else newReport env w :: State.reports w
  | Advance id =>
      (fun r => if Report.id r === id then advance r else r) <$> State.reports w
  | Assign id dept =>
      (fun r => if Report.id r === id then Report.with_department dept r else r)
        <$> State.reports w
  | Remove id => List.filter (fun r => negb (Report.id r === id)) (State.reports w)
  | Clear => []
  end.

(** The storage after [saveReports l] ran on storage [disk]. *)
Definition storedAfterSave (J : JSON.api) (env : Env) (l : list Report)
    (disk : gmap jsstring jsstring) : gmap jsstring jsstring :=
  match JSON.stringify J l with
  | Some text => if setItem_ok env then <[REPORTS_KEY := text]> disk else disk
  | None => disk
  end.

(** Whether [id] is the id of a report of the list. *)
Definition hasId (id : jsstring) (l : list Report) : Prop :=
  id ∈ (Report.id <$> l).

(** ** Sample data *)

Module Sample.

Definition here : Location := {| latitude := 1%float; longitude := 2%float |}.

Definition online : Env :=
  {| Date_now := 1700000000000; Date_toISOString := lit "2023-11-14T22:13:20.000Z";
     setItem_ok := true; getItem_ok := true |}.

(** The same moment with a storage that rejects every call. *)
Definition offline : Env :=
  {| Date_now := 1700000000000; Date_toISOString := lit "2023-11-14T22:13:20.000Z";
     setItem_ok := false; getItem_ok := false |}.

(** One millisecond later. *)
Definition later : Env :=
  {| Date_now := 1700000000001; Date_toISOString := lit "2023-11-14T22:13:20.001Z";
     setItem_ok := true; getItem_ok := true |}.

(** The citizen picks a photo, captures the location and types. *)
Definition fill (photo desc : jsstring) (w : State) : State :=
  setDescription desc (setLocation (Some here) (setPhotoUri (Some photo) w)).

(** A filled form over an empty list and an empty storage. *)
Definition form : State := fill (lit "p1") (lit "pothole") (State.initial ∅).

Definition pothole (status : option jsstring) : Report :=
  {| Report.id := lit "1700000000000"; Report.photoUri := Some (lit "p1");
     Report.location := Some here; Report.description := lit "pothole";
     Report.createdAt := lit "2023-11-14T22:13:20.000Z";
     Report.status := status; Report.department := Some (lit "Unassigned") |}.

Definition streetlight (status : option jsstring) : Report :=
  {| Report.id := lit "1700000000001"; Report.photoUri := Some (lit "p2");
     Report.location := Some here; Report.description := lit "streetlight out";
     Report.createdAt := lit "2023-11-14T22:13:20.001Z";
     Report.status := status; Report.department := Some (lit "Unassigned") |}.

(** An empty form over a given list, storage empty. *)
Definition listing (l : list Report) : State := setReports l (State.initial ∅).

End Sample.

(** ** The rest of the component *)

Definition setLoading (v : bool) (w : State) : State :=
  {| State.photoUri := State.photoUri w; State.location := State.location w;
     State.description := State.description w; State.reports := State.reports w;
     State.loading := v; State.mode := State.mode w;
     State.filter := State.filter w; State.storage := State.storage w |}.

Definition setMode (v : Mode) (w : State) : State :=
  {| State.photoUri := State.photoUri w; State.location := State.location w;
     State.description := State.description w; State.reports := State.reports w;
     State.loading := State.loading w; State.mode := v;
     State.filter := State.filter w; State.storage := State.storage w |}.

(** [o || null] *)
Definition or_null (o : option jsstring) : option jsstring :=
  match o with
  | Some s => if truthy s then Some s else None
  | None => None
  end.

(** What the image picker hands to its callback. *)
Record Asset := { uri : option jsstring }.

Record PickerResponse := {
  didCancel : bool;
  errorCode : option jsstring;
  errorMessage : option jsstring;
  assets : option (list Asset)
}.

(** The callback [handlePickImage] and [handleTakePhoto] share, up to the
    message shown when the picker gives none. *)
Definition onPickerResponse (fallback : jsstring) (response : PickerResponse) : M unit :=
  if didCancel response then mret tt
  else if truthy_opt (errorCode response)
  then tell (Alert_alert (lit "Error") (or_default (errorMessage response) fallback))
  else
    match assets response with
    | Some (first :: _) => modify (setPhotoUri (or_null (uri first)))
    | _ => mret tt
    end.

Definition handlePickImage : PickerResponse -> M unit := onPickerResponse (lit "Image error").
Definition handleTakePhoto : PickerResponse -> M unit := onPickerResponse (lit "Camera error").

(** What [Geolocation.getCurrentPosition] answers: a position, or an error
    with its message. *)
Inductive GeoResult :=
| GeoPosition (lat lng : float)
| GeoError (message : option jsstring).

Definition handleGetLocation (answer : GeoResult) : M unit :=
  modify (setLoading true);;
  match answer with
  | GeoPosition lat lng =>
      modify (setLocation (Some {| latitude := lat; longitude := lng |}));;
      modify (setLoading false)
  | GeoError message =>
      tell (Alert_alert (lit "Location Error")
              (or_default message (lit "Unable to get location")));;
      modify (setLoading false)
  end.

(** The numbers of the header and of the admin dashboard. *)
Definition totalReports (w : State) : nat := length (State.reports w).

Definition resolvedCount (w : State) : nat :=
  length (List.filter (fun r => field_eq (Report.status r) (lit "Resolved")) (State.reports w)).

(** The status chip of a report row: [item.status || 'Reported']. *)
Definition statusChip (r : Report) : jsstring :=
  or_default (Report.status r) (lit "Reported").

(** The filter buttons. *)
Definition filterButtons : list jsstring :=
  [lit "All"; lit "Reported"; lit "Acknowledged"; lit "In Progress"; lit "Resolved"].

#[local] Set Warnings "-inexact-float".

(** The report the [+] button seeds. *)
Definition seedReport (env : Env) : Report :=
  {| Report.id := Number_toString (Date_now env);
     Report.photoUri := Some (lit "https://placehold.co/600x400/png");
     Report.location := Some {| latitude := 23.6102%float; longitude := 85.2799%float |};
     Report.description := lit "Demo: pothole near main road";
     Report.createdAt := Date_toISOString env;
     Report.status := Some (lit "Reported");
     Report.department := Some (lit "Public Works") |}.

Definition seedDemo (J : JSON.api) (env : Env) : M unit :=
  w ← get;
  saveReports J env (seedReport env :: State.reports w).

(** [handleSubmit] up to the [await] of its [saveReports]: [None] when the
    guard turned the form down, else what [saveReports] has pending. *)
Definition handleSubmit_begin (J : JSON.api) (env : Env) : M (option (option jsstring)) :=
  w ← get;
  if incomplete w
  then tell Incomplete_alert;; mret None
  else
    pending ← saveReports_begin J (newReport env w :: State.reports w);
    mret (Some pending).

(** [handleSubmit] from that [await] on. *)
Definition handleSubmit_finish (env : Env) (started : option (option jsstring)) : M unit :=
  match started with
  | None => mret tt
  | Some pending =>
      saveReports_settle env pending;;
      modify (setPhotoUri None);;
      modify (setLocation None);;
      modify (setDescription []);;
      tell Submitted_alert
  end.

(** Submit pressed a second time while the write of the first press is
    pending.  The second press comes after the render that follows the
    first, so it sees the list the first one published; the storage answers
    in the order it was asked. *)
Definition submitTwiceOverlapping (J : JSON.api) (env env' : Env) : M unit :=
  first ← handleSubmit_begin J env;
  second ← handleSubmit_begin J env';
  handleSubmit_finish env first;;
  handleSubmit_finish env' second.

(** The in-memory list and the stored entry agree: the entry is the JSON
    text of the list. *)
Definition inSync (J : JSON.api) (w : State) : Prop :=
  ∃ text, JSON.stringify J (State.reports w) = Some text
          ∧ State.storage w !! REPORTS_KEY = Some text.

(** ** The earlier version of the component

    The second document of [App.tsx]: reports have neither status nor
    department, and [saveReports] has no [try]. *)

Module Legacy.

Section Handlers.
Context (J : JSON.api) (env : Env).

Definition loadReports : M unit :=
  try_catch
    (data ← AsyncStorage_getItem env REPORTS_KEY;
     match data with
     | Some text =>
         if truthy text
         then parsed ← orThrow JSONError (JSON.parse J text);
              modify (setReports parsed)
         else mret tt
     | None => mret tt
     end)
    (fun _ => mret tt).

Definition saveReports (newReports : list Report) : M unit :=
  modify (setReports newReports);;
  text ← orThrow JSONError (JSON.stringify J newReports);
  AsyncStorage_setItem env REPORTS_KEY text.

Definition newReport (w : State) : Report :=
  {| Report.id := Number_toString (Date_now env);
     Report.photoUri := State.photoUri w;
     Report.location := State.location w;
     Report.description := State.description w;
     Report.createdAt := Date_toISOString env;
     Report.status := None;
     Report.department := None |}.

(** The one-argument alert has a title and no message. *)
Definition handleSubmit : M unit :=
  w ← get;
  if incomplete w
  then tell (Alert_alert (lit "Please fill all fields and add a photo.") [])
  else
    let newReports := newReport w :: State.reports w in
    saveReports newReports;;
    modify (setPhotoUri None);;
    modify (setLocation None);;
    modify (setDescription []);;
    tell (Alert_alert (lit "Report submitted!") (lit "Thank you for helping your city.")).

End Handlers.

End Legacy.

(** ** More sample data *)

Module Demo.

(** A picked asset that carries no uri. *)
Definition blankPick : PickerResponse :=
  {| didCancel := false; errorCode := None; errorMessage := None;
     assets := Some [{| uri := None |}] |}.

Definition picked (u : jsstring) : PickerResponse :=
  {| didCancel := false; errorCode := None; errorMessage := None;
     assets := Some [{| uri := Some u |}] |}.

Definition failedPick : PickerResponse :=
  {| didCancel := false; errorCode := Some (lit "camera_unavailable");
     errorMessage := None; assets := None |}.



(** Two reports in memory, written through to the storage. *)
Definition synced : State :=
  after (saveReports RefJSON.codec Sample.online
           [Sample.streetlight (Some (lit "Resolved")); Sample.pothole (Some (lit "Reported"))]
           Sample.form).

End Demo.

(** * Properties *)

(** ** Running the handlers *)

Ltac run :=
  unfold perform, handleSubmit, advanceStatus, assignDept, onAssignPress,
    deleteReport, clearAll, saveReports, loadReports, AsyncStorage_setItem,
    AsyncStorage_getItem, try_catch, orThrow, throw, get, modify, tell,
    outcome, after, shown, mbind, M_bind, mret, M_ret;
  simpl.

Lemma saveReports_run J env l w :
  saveReports J env l w =
  match JSON.stringify J l with
  | Some text =>
      if setItem_ok env
      then (inr tt, setStorage (<[REPORTS_KEY := text]> (State.storage w)) (setReports l w), [])
      else (inr tt, setReports l w, [console_warn (lit "Failed to save reports:") StorageError])
  | None => (inr tt, setReports l w, [console_warn (lit "Failed to save reports:") JSONError])
  end.
Proof.
  run. destruct (JSON.stringify J l); simpl; [destruct (setItem_ok env)|]; reflexivity.
Qed.

Lemma saveReports_reports J env l w :
  State.reports (after (saveReports J env l w)) = l.
Proof.
  rewrite saveReports_run.
  destruct (JSON.stringify J l); [destruct (setItem_ok env)|]; reflexivity.
Qed.

Lemma saveReports_storage J env l w :
  State.storage (after (saveReports J env l w)) = storedAfterSave J env l (State.storage w).
Proof.
  rewrite saveReports_run. unfold storedAfterSave.
  destruct (JSON.stringify J l); [destruct (setItem_ok env)|]; reflexivity.
Qed.

Lemma saveReports_outcome J env l w : outcome (saveReports J env l w) = inr tt.
Proof.
  rewrite saveReports_run.
  destruct (JSON.stringify J l); [destruct (setItem_ok env)|]; reflexivity.
Qed.

(** Each handler in terms of the one [saveReports] call it makes. *)
Lemma handleSubmit_run J env w :
  handleSubmit J env w =
  if incomplete w then (inr tt, w, [Incomplete_alert])
  else
    let saved := saveReports J env (newReport env w :: State.reports w) w in
    (inr tt, setDescription [] (setLocation None (setPhotoUri None (after saved))),
     shown saved ++ [Submitted_alert]).
Proof.
  unfold handleSubmit, mbind, M_bind, get, tell, modify. simpl.
  destruct (incomplete w); [reflexivity|].
  pose proof (saveReports_outcome J env (newReport env w :: State.reports w) w) as Hout.
  destruct (saveReports J env (newReport env w :: State.reports w) w) as [[o w1] log].
  unfold outcome in Hout. simpl in *. subst o. reflexivity.
Qed.

Lemma advanceStatus_run J env id w :
  advanceStatus J env id w = saveReports J env (nextReports env (Advance id) w) w.
Proof.
  unfold advanceStatus, mbind, M_bind, get. simpl.
  destruct (saveReports J env _ w) as [[o w1] log]. reflexivity.
Qed.

Lemma assignDept_run J env id dept w :
  assignDept J env id dept w = saveReports J env (nextReports env (Assign id dept) w) w.
Proof.
  unfold assignDept, mbind, M_bind, get. simpl.
  destruct (saveReports J env _ w) as [[o w1] log]. reflexivity.
Qed.

Lemma deleteReport_run J env id w :
  deleteReport J env id true w =
  let saved := saveReports J env (nextReports env (Remove id) w) w in
  (outcome saved, after saved,
   Alert_alert (lit "Delete report") (lit "Are you sure?") :: shown saved).
Proof.
  unfold deleteReport, mbind, M_bind, get, tell. simpl.
  destruct (saveReports J env _ w) as [[o w1] log]. reflexivity.
Qed.

Lemma clearAll_run J env w :
  clearAll J env true w =
  let saved := saveReports J env [] w in
  (outcome saved, after saved,
   Alert_alert (lit "Clear all") (lit "Remove all stored reports?") :: shown saved).
Proof.
  unfold clearAll, mbind, M_bind, tell. simpl.
  destruct (saveReports J env [] w) as [[o w1] log]. reflexivity.
Qed.

(** Every handler ends normally: whatever is thrown inside [saveReports] is
    caught there. *)
Lemma perform_outcome J env op w : outcome (perform J env op w) = inr tt.
Proof.
  destruct op; run; try destruct (incomplete w); simpl; try reflexivity;
    match goal with
    | |- context [JSON.stringify J ?l] =>
        destruct (JSON.stringify J l); simpl; [destruct (setItem_ok env)|]; reflexivity
    end.
Qed.

(** Every handler leaves the in-memory list its operation computes, however
    the save went. *)
Lemma perform_reports J env op w :
  State.reports (after (perform J env op w)) = nextReports env op w.
Proof.
  destruct op; run; try destruct (incomplete w); simpl; try reflexivity;
    match goal with
    | |- context [JSON.stringify J ?l] =>
        destruct (JSON.stringify J l); simpl; [destruct (setItem_ok env)|]; reflexivity
    end.
Qed.

Lemma perform_storage J env op w :
  State.storage (after (perform J env op w)) =
  match op with
  | Submit => if incomplete w then State.storage w
              else storedAfterSave J env (nextReports env op w) (State.storage w)
  | _ => storedAfterSave J env (nextReports env op w) (State.storage w)
  end.
Proof.
  destruct op; run; try destruct (incomplete w); unfold storedAfterSave; simpl;
    try reflexivity;
    match goal with
    | |- context [JSON.stringify J ?l] =>
        destruct (JSON.stringify J l); simpl; [destruct (setItem_ok env)|]; reflexivity
    end.
Qed.

(** The handlers in a row: submit A, advance it, assign it, submit B,
    delete A, clear all. *)
Example scenario :
  let J := RefJSON.codec in
  let A := lit "1700000000000" in
  let w1 := after (handleSubmit J Sample.online Sample.form) in
  let w2 := after (advanceStatus J Sample.online A w1) in
  let w3 := after (assignDept J Sample.online A (lit "Public Works") w2) in
  let w4 := after (handleSubmit J Sample.later
                     (Sample.fill (lit "p2") (lit "streetlight out") w3)) in
  let w5 := after (deleteReport J Sample.later A true w4) in
  let w6 := after (clearAll J Sample.later true w5) in
  State.reports w1 = [Sample.pothole (Some (lit "Reported"))]
  ∧ State.reports w2 = [Sample.pothole (Some (lit "Acknowledged"))]
  ∧ State.reports w3
    = [Report.with_department (lit "Public Works")
         (Sample.pothole (Some (lit "Acknowledged")))]
  ∧ State.reports w4
    = [Sample.streetlight (Some (lit "Reported"));
       Report.with_department (lit "Public Works")
         (Sample.pothole (Some (lit "Acknowledged")))]
  ∧ State.reports w5 = [Sample.streetlight (Some (lit "Reported"))]
  ∧ State.reports w6 = []
  ∧ State.storage w5 !! REPORTS_KEY
    = RefJSON.stringify [Sample.streetlight (Some (lit "Reported"))]
  ∧ State.storage w6 !! REPORTS_KEY = Some (lit "[]").
Proof.
  repeat split; vm_compute; reflexivity.
Qed.

(** ** Saving that fails *)

(** C1, as the code has it: [saveReports] publishes the new list to the
    in-memory state before it writes, so when the write is rejected every
    mutating operation still leaves the in-memory list at the list it
    computed; the storage keeps what it held, the handler ends normally, and
    the failure is a console warning (unless it was a submit that the form
    guard turned down, which saves nothing). *)
Theorem failed_save_keeps_new_list J env (op : Mutation) (w : State) :
  setItem_ok env = false →
  State.reports (after (perform J env op w)) = nextReports env op w
  ∧ State.storage (after (perform J env op w)) = State.storage w
  ∧ outcome (perform J env op w) = inr tt
  ∧ ((op = Submit → incomplete w = false) →
     ∃ e, console_warn (lit "Failed to save reports:") e ∈ shown (perform J env op w)).
Proof.
  intros Hfail. split; [apply perform_reports|]. split; [|split; [apply perform_outcome|]].
  - rewrite perform_storage. unfold storedAfterSave. rewrite Hfail.
    destruct op; try destruct (incomplete w);
      try destruct (JSON.stringify J _); reflexivity.
  - intros Hsaved.
    assert (Hlog : ∀ l w0,
      ∃ e, console_warn (lit "Failed to save reports:") e ∈ shown (saveReports J env l w0)).
    { intros l w0. rewrite saveReports_run, Hfail.
      destruct (JSON.stringify J l); eexists; left. }
    destruct op; simpl.
    + rewrite handleSubmit_run, (Hsaved eq_refl). simpl.
      destruct (Hlog (newReport env w :: State.reports w) w) as [e He].
      exists e. unfold shown at 1. simpl. apply elem_of_app. by left.
    + rewrite advanceStatus_run. apply Hlog.
    + rewrite assignDept_run. apply Hlog.
    + rewrite deleteReport_run.
      destruct (Hlog (nextReports env (Remove id) w) w) as [e He].
      exists e. by right.
    + rewrite clearAll_run.
      destruct (Hlog [] w) as [e He]. exists e. by right.
Qed.

Lemma failed_save_keeps_new_list_witness :
  setItem_ok Sample.offline = false
  ∧ State.reports (after (perform RefJSON.codec Sample.offline Submit Sample.form))
    = nextReports Sample.offline Submit Sample.form
  ∧ State.storage (after (perform RefJSON.codec Sample.offline Submit Sample.form))
    = State.storage Sample.form.
Proof.
  split; [reflexivity|].
  pose proof (failed_save_keeps_new_list RefJSON.codec Sample.offline Submit Sample.form eq_refl)
    as (Hlist & Hdisk & _).
  exact (conj Hlist Hdisk).
Defined.

(** C1 fails as stated: a submit whose write is rejected leaves the new
    report in the in-memory list, thanks the user, and ends normally. *)
Lemma failed_save_is_published :
  setItem_ok Sample.offline = false
  ∧ State.reports Sample.form = []
  ∧ State.reports (after (handleSubmit RefJSON.codec Sample.offline Sample.form))
    = [Sample.pothole (Some (lit "Reported"))]
  ∧ State.reports (after (handleSubmit RefJSON.codec Sample.offline Sample.form))
    ≠ State.reports Sample.form
  ∧ outcome (handleSubmit RefJSON.codec Sample.offline Sample.form) = inr tt
  ∧ shown (handleSubmit RefJSON.codec Sample.offline Sample.form)
    = [console_warn (lit "Failed to save reports:") StorageError; Submitted_alert].
Proof.
  repeat split; try (vm_compute; congruence).
Qed.

(** ** Submitting *)

(** The guard of [handleSubmit] lets the form through exactly when there is
    a non-empty photo reference, a location, and a description that is not
    blank. *)
Lemma incomplete_false_iff w :
  incomplete w = false ↔
  (∃ p, State.photoUri w = Some p ∧ p ≠ [])
  ∧ is_Some (State.location w)
  ∧ trim (State.description w) ≠ [].
Proof.
  unfold incomplete. rewrite !orb_false_iff, !negb_false_iff, bool_decide_eq_true.
  assert (Htruthy : ∀ s, truthy s = true ↔ s ≠ []) by (intros []; simpl; split; congruence).
  rewrite Htruthy. split.
  - intros [[Hp Hl] Hd]. repeat split; try assumption.
    destruct (State.photoUri w) as [p|]; [|discriminate].
    exists p. split; [reflexivity|]. by apply Htruthy.
  - intros [(p & Hp & Hne) [Hl Hd]]. repeat split; try assumption.
    rewrite Hp. simpl. by apply Htruthy.
Qed.

Lemma lit_inj (s t : string) : lit s = lit t → s = t.
Proof.
  unfold lit. intros Heq.
  rewrite <- (string_of_list_ascii_of_string s), <- (string_of_list_ascii_of_string t).
  f_equal. revert Heq. generalize (list_ascii_of_string t).
  induction (list_ascii_of_string s) as [|a l IH]; intros [|b k]; simpl; try discriminate;
    [reflexivity|].
  intros [= Hab Hlk]. f_equal; [|by apply IH].
  rewrite <- (ascii_N_embedding a), <- (ascii_N_embedding b). by rewrite Hab.
Qed.

(** Different clock readings have different numerals. *)
Lemma Number_toString_inj (m n : Z) : Number_toString m = Number_toString n → m = n.
Proof.
  unfold Number_toString. intros Heq. apply lit_inj in Heq.
  apply DecimalZ.to_int_inj.
  assert (Hread : ∀ z, NilZero.int_of_string (NilZero.string_of_int (Z.to_int z))
                       = Some (Z.to_int z)).
  { intros z. apply NilZero.isi; destruct z; simpl; try discriminate;
      intros [= Hnil]; by apply DecimalPos.Unsigned.to_uint_nonnil in Hnil. }
  pose proof (Hread m) as Hm. rewrite Heq, Hread in Hm. congruence.
Qed.

(** C2, as the code has it: for every state, a complete form is accepted
    and the list becomes the new report followed by the prior list; the new
    report has status 'Reported', department 'Unassigned', carries the
    form's photo, location and description, and has for id the decimal
    numeral of the clock reading [Date.now()].  That id is the id of a
    report of the list made at some clock reading exactly when that reading
    is the present one; so it differs from every id already in the list
    when no report of the list carries the numeral of the present reading. *)
Theorem submit_prepends J env (w : State) (p : jsstring) :
  State.photoUri w = Some p → p ≠ [] →
  is_Some (State.location w) →
  trim (State.description w) ≠ [] →
  State.reports (after (handleSubmit J env w)) = newReport env w :: State.reports w
  ∧ Report.status (newReport env w) = Some (lit "Reported")
  ∧ Report.department (newReport env w) = Some (lit "Unassigned")
  ∧ Report.id (newReport env w) = Number_toString (Date_now env)
  ∧ (∀ r stamp, r ∈ State.reports w → Report.id r = Number_toString stamp →
       (Report.id (newReport env w) = Report.id r ↔ Date_now env = stamp))
  ∧ (¬ hasId (Number_toString (Date_now env)) (State.reports w) →
     ∀ r, r ∈ State.reports w → Report.id (newReport env w) ≠ Report.id r)
  ∧ Report.photoUri (newReport env w) = Some p
  ∧ Report.location (newReport env w) = State.location w
  ∧ Report.description (newReport env w) = State.description w
  ∧ outcome (handleSubmit J env w) = inr tt
  ∧ Submitted_alert ∈ shown (handleSubmit J env w).
Proof.
  intros Hp Hne Hl Hd.
  assert (Hok : incomplete w = false) by (apply incomplete_false_iff; eauto).
  rewrite handleSubmit_run, Hok. simpl.
  split; [unfold after; simpl; apply saveReports_reports|].
  do 3 (split; [reflexivity|]).
  split; [|split; [|repeat split; try assumption]].
  - intros r stamp _ Hr. rewrite Hr. split.
    + apply Number_toString_inj.
    + by intros ->.
  - intros Hfresh r Hr Heq. apply Hfresh. unfold hasId.
    rewrite Heq. by apply list_elem_of_fmap_2.
  - unfold shown at 1. simpl. apply elem_of_app. right. left.
Qed.

Lemma submit_prepends_witness :
  State.photoUri (setReports [Sample.pothole (Some (lit "Acknowledged"))] Sample.form)
    = Some (lit "p1")
  ∧ State.reports
      (after (handleSubmit RefJSON.codec Sample.online
                (setReports [Sample.pothole (Some (lit "Acknowledged"))] Sample.form)))
    = newReport Sample.online
        (setReports [Sample.pothole (Some (lit "Acknowledged"))] Sample.form)
      :: State.reports (setReports [Sample.pothole (Some (lit "Acknowledged"))] Sample.form)
  ∧ Report.status
      (newReport Sample.online
         (setReports [Sample.pothole (Some (lit "Acknowledged"))] Sample.form))
    = Some (lit "Reported").
Proof.
  split; [reflexivity|].
  assert (Hphoto : lit "p1" ≠ []) by discriminate.
  assert (Hdesc : trim (State.description
                          (setReports [Sample.pothole (Some (lit "Acknowledged"))] Sample.form))
                  ≠ []) by (vm_compute; discriminate).
  pose proof (submit_prepends RefJSON.codec Sample.online
                (setReports [Sample.pothole (Some (lit "Acknowledged"))] Sample.form)
                (lit "p1") eq_refl Hphoto (mk_is_Some _ _ eq_refl) Hdesc)
    as (Hlist & Hstatus & _).
  exact (conj Hlist Hstatus).
Defined.

(** C2 fails as stated: with the pothole report in the list and the clock
    at the millisecond that report was made in, the submitted report gets
    the id the list already holds. *)
Lemma submit_reuses_clock_id :
  incomplete (setReports [Sample.pothole (Some (lit "Acknowledged"))] Sample.form) = false
  ∧ Report.id <$> State.reports
      (after (handleSubmit RefJSON.codec Sample.online
                (setReports [Sample.pothole (Some (lit "Acknowledged"))] Sample.form)))
    = [lit "1700000000000"; lit "1700000000000"]
  ∧ hasId (lit "1700000000000") [Sample.pothole (Some (lit "Acknowledged"))].
Proof.
  split; [vm_compute; reflexivity|]. split; [vm_compute; reflexivity|].
  unfold hasId. simpl. left.
Qed.

(** ** Advancing *)

Lemma advanceStatus_lookup J env id (w : State) (k : nat) :
  State.reports (after (advanceStatus J env id w)) !! k =
  (fun r => if Report.id r === id then advance r else r) <$> State.reports w !! k.
Proof.
  rewrite advanceStatus_run, saveReports_reports. simpl. apply list_lookup_fmap.
Qed.

Lemma advanceRepeatedly_cons J env envs id w :
  after (advanceRepeatedly J (env :: envs) id w)
  = after (advanceRepeatedly J envs id (after (advanceStatus J env id w)))
  ∧ outcome (advanceRepeatedly J (env :: envs) id w)
    = outcome (advanceRepeatedly J envs id (after (advanceStatus J env id w))).
Proof.
  simpl. unfold mbind, M_bind.
  pose proof (perform_outcome J env (Advance id) w) as Hout. simpl in Hout.
  destruct (advanceStatus J env id w) as [[o w1] log1].
  unfold outcome in Hout. simpl in Hout. subst o.
  unfold after, outcome. simpl.
  destruct (advanceRepeatedly J envs id w1) as [[o2 w2] log2]. split; reflexivity.
Qed.

(** One step of the workflow: a status of [order] moves to the next entry,
    the last entry to itself. *)
Lemma advance_known (r : Report) (i : nat) (s : jsstring) :
  order !! i = Some s → Report.status r = Some s →
  Report.status (advance r) = order !! Nat.min (i + 1) 3.
Proof.
  intros Hi Hs. unfold advance. rewrite Hs.
  destruct i as [|[|[|[|i]]]]; simpl in Hi; try discriminate;
    injection Hi as <-; reflexivity.
Qed.

(** C3: pressing Advance [n] times on a report whose status is the [i]-th
    of Reported, Acknowledged, In Progress, Resolved leaves it, at the same
    place of the list, with the status number [min (i + n) 3] of that
    sequence: one stage per press, never backward, never past a stage, and
    Resolved stays Resolved; each press ends normally. *)
Theorem advanceStatus_sequence J (envs : list Env) (w : State) (id : jsstring)
    (k : nat) (r : Report) (i : nat) (s : jsstring) :
  State.reports w !! k = Some r →
  Report.id r = id →
  order !! i = Some s →
  Report.status r = Some s →
  ∃ r', State.reports (after (advanceRepeatedly J envs id w)) !! k = Some r'
        ∧ Report.id r' = id
        ∧ Report.status r' = order !! Nat.min (i + length envs) 3
        ∧ outcome (advanceRepeatedly J envs id w) = inr tt.
Proof.
  revert w r i s. induction envs as [|env envs IH]; intros w r i s Hk Hid Hi Hs.
  - exists r. simpl. repeat split; try assumption.
    rewrite Hs, <- Hi. f_equal.
    apply lookup_lt_Some in Hi. simpl in Hi. lia.
  - destruct (advanceRepeatedly_cons J env envs id w) as [-> ->].
    pose proof (advanceStatus_lookup J env id w k) as Hstep.
    rewrite Hk in Hstep. simpl in Hstep.
    unfold strict_eq in Hstep. rewrite bool_decide_eq_true_2 in Hstep by assumption.
    assert (Hi' : is_Some (order !! Nat.min (i + 1) 3)).
    { apply lookup_lt_is_Some. simpl. lia. }
    destruct Hi' as [s' Hs'].
    destruct (IH _ (advance r) (Nat.min (i + 1) 3) s' Hstep) as (r' & Hr' & Hid' & Hst' & Hout).
    + unfold advance. simpl. assumption.
    + assumption.
    + rewrite (advance_known r i s); assumption.
    + exists r'. repeat split; try assumption.
      rewrite Hst'. f_equal. simpl. lia.
Qed.

Lemma advanceStatus_sequence_witness :
  State.reports (Sample.listing [Sample.pothole (Some (lit "Reported"))]) !! 0%nat
    = Some (Sample.pothole (Some (lit "Reported")))
  ∧ ∃ r', State.reports
            (after (advanceRepeatedly RefJSON.codec
                      [Sample.online; Sample.offline; Sample.online; Sample.online; Sample.online]
                      (lit "1700000000000")
                      (Sample.listing [Sample.pothole (Some (lit "Reported"))]))) !! 0%nat
          = Some r'
          ∧ Report.status r' = Some (lit "Resolved").
Proof.
  split; [reflexivity|].
  destruct (advanceStatus_sequence RefJSON.codec
              [Sample.online; Sample.offline; Sample.online; Sample.online; Sample.online]
              (Sample.listing [Sample.pothole (Some (lit "Reported"))])
              (lit "1700000000000") 0 (Sample.pothole (Some (lit "Reported")))
              0 (lit "Reported") eq_refl eq_refl eq_refl eq_refl)
    as (r' & Hr' & _ & Hst & _).
  exists r'. split; [exact Hr' | exact Hst].
Defined.

(** ** An id no report has *)

Lemma map_absent_id (f : Report → Report) (id : jsstring) (l : list Report) :
  ¬ hasId id l →
  (fun r => if Report.id r === id then f r else r) <$> l = l.
Proof.
  unfold hasId. induction l as [|r l IH]; intros Hid; [reflexivity|].
  rewrite fmap_cons, not_elem_of_cons in Hid. destruct Hid as [Hne Hid].
  rewrite fmap_cons, IH by assumption.
  unfold strict_eq. rewrite bool_decide_eq_false_2 by congruence. reflexivity.
Qed.

Lemma filter_absent_id (id : jsstring) (l : list Report) :
  ¬ hasId id l →
  List.filter (fun r => negb (Report.id r === id)) l = l.
Proof.
  unfold hasId. induction l as [|r l IH]; intros Hid; [reflexivity|].
  rewrite fmap_cons, not_elem_of_cons in Hid. destruct Hid as [Hne Hid].
  simpl. unfold strict_eq at 1. rewrite bool_decide_eq_false_2 by congruence.
  simpl. by rewrite IH.
Qed.

(** C4, as the code has it: on an id that no report of the list has,
    [advanceStatus], [assignDept] and a confirmed [deleteReport] raise
    nothing and end normally; the in-memory list is the one before, and
    that list is saved once more, so the stored entry becomes its JSON text
    when the write succeeds and is untouched when it does not. *)
Theorem absent_id_resaves J env (w : State) (id dept : jsstring) (op : Mutation) :
  ¬ hasId id (State.reports w) →
  op ∈ [Advance id; Assign id dept; Remove id] →
  State.reports (after (perform J env op w)) = State.reports w
  ∧ State.storage (after (perform J env op w))
    = storedAfterSave J env (State.reports w) (State.storage w)
  ∧ outcome (perform J env op w) = inr tt.
Proof.
  intros Hid Hop.
  assert (Hsame : nextReports env op w = State.reports w).
  { rewrite !elem_of_cons, elem_of_nil in Hop.
    destruct Hop as [->|[->|[->|[]]]]; simpl.
    - by apply map_absent_id.
    - by apply map_absent_id.
    - by apply filter_absent_id. }
  rewrite perform_reports, perform_storage, perform_outcome, Hsame.
  repeat split.
  rewrite !elem_of_cons, elem_of_nil in Hop.
  destruct Hop as [->|[->|[->|[]]]]; reflexivity.
Qed.

Lemma absent_id_resaves_witness :
  ¬ hasId (lit "nope") (State.reports (Sample.listing [Sample.pothole None]))
  ∧ State.reports
      (after (perform RefJSON.codec Sample.online (Remove (lit "nope"))
                (Sample.listing [Sample.pothole None])))
    = State.reports (Sample.listing [Sample.pothole None])
  ∧ outcome (perform RefJSON.codec Sample.online (Remove (lit "nope"))
               (Sample.listing [Sample.pothole None])) = inr tt.
Proof.
  assert (Hid : ¬ hasId (lit "nope") (State.reports (Sample.listing [Sample.pothole None]))).
  { unfold hasId. simpl. rewrite list_elem_of_singleton. discriminate. }
  split; [exact Hid|].
  assert (Hop : Remove (lit "nope")
                ∈ [Advance (lit "nope"); Assign (lit "nope") (lit "Roads"); Remove (lit "nope")]).
  { right. right. left. }
  pose proof (absent_id_resaves RefJSON.codec Sample.online
                (Sample.listing [Sample.pothole None]) (lit "nope") (lit "Roads")
                (Remove (lit "nope")) Hid Hop) as (Hlist & _ & Hout).
  exact (conj Hlist Hout).
Defined.

(** C4 fails as stated: after a submit whose write was rejected the list is
    in memory only; advancing, assigning or deleting an id that no report
    has then ends normally with nothing shown but the delete dialog, and
    the advance writes the list to the storage, which held nothing. *)
Lemma absent_id_is_not_refused :
  State.reports (after (handleSubmit RefJSON.codec Sample.offline Sample.form))
    = [Sample.pothole (Some (lit "Reported"))]
  ∧ outcome (advanceStatus RefJSON.codec Sample.online (lit "nope")
               (after (handleSubmit RefJSON.codec Sample.offline Sample.form))) = inr tt
  ∧ shown (advanceStatus RefJSON.codec Sample.online (lit "nope")
             (after (handleSubmit RefJSON.codec Sample.offline Sample.form))) = []
  ∧ State.storage (after (handleSubmit RefJSON.codec Sample.offline Sample.form))
      !! REPORTS_KEY = None
  ∧ State.storage
      (after (advanceStatus RefJSON.codec Sample.online (lit "nope")
                (after (handleSubmit RefJSON.codec Sample.offline Sample.form))))
      !! REPORTS_KEY
    = RefJSON.stringify [Sample.pothole (Some (lit "Reported"))]
  ∧ is_Some (RefJSON.stringify [Sample.pothole (Some (lit "Reported"))])
  ∧ outcome (assignDept RefJSON.codec Sample.online (lit "nope") (lit "Roads")
               (after (handleSubmit RefJSON.codec Sample.offline Sample.form))) = inr tt
  ∧ shown (assignDept RefJSON.codec Sample.online (lit "nope") (lit "Roads")
             (after (handleSubmit RefJSON.codec Sample.offline Sample.form))) = []
  ∧ outcome (deleteReport RefJSON.codec Sample.online (lit "nope") true
               (after (handleSubmit RefJSON.codec Sample.offline Sample.form))) = inr tt
  ∧ shown (deleteReport RefJSON.codec Sample.online (lit "nope") true
             (after (handleSubmit RefJSON.codec Sample.offline Sample.form)))
    = [Alert_alert (lit "Delete report") (lit "Are you sure?")].
Proof.
  repeat split; try (vm_compute; reflexivity).
  vm_compute. eexists. reflexivity.
Qed.

(** ** A form with something missing *)

(** C5: when the photo reference is missing or empty, or the location is
    missing, or the description is blank, [handleSubmit] turns the form
    down: its only effect is the 'Incomplete' alert, and the state (the
    report list, the storage, the form itself) is what it was. *)
Theorem incomplete_submit_rejected J env (w : State) :
  State.photoUri w = None ∨ State.photoUri w = Some []
  ∨ State.location w = None ∨ trim (State.description w) = [] →
  after (handleSubmit J env w) = w
  ∧ shown (handleSubmit J env w) = [Incomplete_alert]
  ∧ State.reports (after (handleSubmit J env w)) = State.reports w
  ∧ State.storage (after (handleSubmit J env w)) = State.storage w.
Proof.
  intros Hmissing.
  assert (Hbad : incomplete w = true).
  { apply not_false_iff_true. intros Hok.
    apply incomplete_false_iff in Hok as ((p & Hp & Hne) & [loc Hloc] & Hd).
    destruct Hmissing as [H|[H|[H|H]]]; congruence. }
  rewrite handleSubmit_run, Hbad. repeat split.
Qed.

Lemma incomplete_submit_rejected_witness :
  trim (State.description (setDescription (lit "   ") Sample.form)) = []
  ∧ after (handleSubmit RefJSON.codec Sample.online (setDescription (lit "   ") Sample.form))
    = setDescription (lit "   ") Sample.form
  ∧ shown (handleSubmit RefJSON.codec Sample.online (setDescription (lit "   ") Sample.form))
    = [Incomplete_alert].
Proof.
  assert (Hblank : trim (State.description (setDescription (lit "   ") Sample.form)) = [])
    by reflexivity.
  split; [exact Hblank|].
  pose proof (incomplete_submit_rejected RefJSON.codec Sample.online
                (setDescription (lit "   ") Sample.form)
                (or_intror (or_intror (or_intror Hblank)))) as (Hstate & Hshown & _).
  exact (conj Hstate Hshown).
Defined.

(** ** Saving, then loading *)




(** The empty list comes back as well, over whatever list the loading
    instance held. *)
Example save_then_load_empty :
  State.reports
    (after (loadReports RefJSON.codec Sample.online
              (setStorage
                 (State.storage (after (saveReports RefJSON.codec Sample.online [] Sample.form)))
                 (Sample.listing [Sample.pothole None]))))
  = []
  ∧ State.storage (after (saveReports RefJSON.codec Sample.online [] Sample.form))
      !! REPORTS_KEY = Some (lit "[]").
Proof.
  split; vm_compute; reflexivity.
Qed.

(** ** Assigning a department *)

Lemma truthy_trim (t : jsstring) : trim t ≠ [] → truthy t && truthy (trim t) = true.
Proof.
  intros Hne. destruct t as [|c t]; [by destruct Hne|].
  simpl. destruct (trim (c :: t)); [by destruct Hne | reflexivity].
Qed.

(** C7, as the code has it: [assignDept] checks nothing; the check is in
    the prompt of the Assign button.  Text that is blank is dropped there:
    the prompt is the only effect and the state is what it was, nothing is
    raised.  Other text is trimmed and [assignDept] sets the department of
    every report with that id to the trimmed text, keeps the other reports
    and fields, and saves the list. *)
Theorem assign_prompt J env (w : State) (id t : jsstring) :
  (trim t = [] →
   onAssignPress J env true id (Some t) w
   = (inr tt, w, [Alert_prompt (lit "Assign Department") (lit "Enter department")]))
  ∧ (trim t ≠ [] →
     (∀ (k : nat) (r : Report),
        State.reports w !! k = Some r →
        State.reports (after (onAssignPress J env true id (Some t) w)) !! k
        = Some (if Report.id r === id then Report.with_department (trim t) r else r))
     ∧ length (State.reports (after (onAssignPress J env true id (Some t) w)))
       = length (State.reports w)
     ∧ State.storage (after (onAssignPress J env true id (Some t) w))
       = storedAfterSave J env (nextReports env (Assign id (trim t)) w) (State.storage w)
     ∧ outcome (onAssignPress J env true id (Some t) w) = inr tt).
Proof.
  split.
  - intros Hblank. unfold onAssignPress. rewrite Hblank.
    rewrite andb_false_r. reflexivity.
  - intros Hne.
    assert (Hrun : ∀ X (pick : (Exn + unit) * State * list Effect → X),
      (∀ o s log1 log2, pick (o, s, log1) = pick (o, s, log2)) →
      pick (onAssignPress J env true id (Some t) w)
      = pick (saveReports J env (nextReports env (Assign id (trim t)) w) w)).
    { intros X pick Hpick. unfold onAssignPress. rewrite truthy_trim by assumption.
      unfold mbind, M_bind, tell. rewrite assignDept_run.
      destruct (saveReports J env _ w) as [[o s] log]. apply Hpick. }
    rewrite (Hrun _ (fun x => State.reports (after x))) by reflexivity.
    rewrite (Hrun _ (fun x => State.storage (after x))) by reflexivity.
    rewrite (Hrun _ outcome) by reflexivity.
    rewrite saveReports_reports, saveReports_storage, saveReports_outcome.
    repeat split.
    + intros k r Hk. simpl. rewrite list_lookup_fmap, Hk. reflexivity.
    + simpl. apply length_fmap.
Qed.

Lemma assign_prompt_witness :
  trim (lit " Roads ") = lit "Roads"
  ∧ State.reports
      (after (onAssignPress RefJSON.codec Sample.online true (lit "1700000000000")
                (Some (lit " Roads "))
                (Sample.listing [Sample.streetlight None; Sample.pothole None]))) !! 1%nat
    = Some (Report.with_department (lit "Roads") (Sample.pothole None)).
Proof.
  split; [reflexivity|].
  assert (Hne : trim (lit " Roads ") ≠ []) by discriminate.
  destruct (assign_prompt RefJSON.codec Sample.online
              (Sample.listing [Sample.streetlight None; Sample.pothole None])
              (lit "1700000000000") (lit " Roads ")) as [_ Hset].
  destruct (Hset Hne) as (Hlookup & _).
  exact (Hlookup 1%nat (Sample.pothole None) eq_refl).
Defined.

(** C7 fails as stated: the department the prompt sets is the entered text
    trimmed, not the entered text; blank text is dropped with nothing shown
    but the prompt and nothing raised; and [assignDept] itself takes the
    empty string. *)
Lemma assign_trims_and_never_refuses :
  Report.department <$> State.reports
    (after (onAssignPress RefJSON.codec Sample.online true (lit "1700000000000")
              (Some (lit " Roads ")) (Sample.listing [Sample.pothole None])))
  = [Some (lit "Roads")]
  ∧ lit "Roads" ≠ lit " Roads "
  ∧ onAssignPress RefJSON.codec Sample.online true (lit "1700000000000")
      (Some (lit "  ")) (Sample.listing [Sample.pothole None])
    = (inr tt, Sample.listing [Sample.pothole None],
       [Alert_prompt (lit "Assign Department") (lit "Enter department")])
  ∧ Report.department <$> State.reports
      (after (assignDept RefJSON.codec Sample.online (lit "1700000000000") []
                (Sample.listing [Sample.pothole None])))
    = [Some []]
  ∧ outcome (assignDept RefJSON.codec Sample.online (lit "1700000000000") []
               (Sample.listing [Sample.pothole None])) = inr tt.
Proof.
  repeat split; try (vm_compute; congruence).
Qed.

(** ** Filtering *)

Lemma field_eq_true (o : option jsstring) (f : jsstring) :
  field_eq o f = true ↔ o = Some f.
Proof.
  destruct o as [s|]; simpl; [|split; discriminate].
  unfold strict_eq. rewrite bool_decide_eq_true. split; congruence.
Qed.

(** The boolean filter of the code is the filter by the status it tests. *)
Lemma filter_by_status (f : jsstring) (l : list Report) :
  List.filter (fun r => field_eq (Report.status r) f) l
  = filter (fun r => Report.status r = Some f) l.
Proof.
  induction l as [|r l IH]; [reflexivity|].
  simpl. rewrite filter_cons, IH.
  destruct (decide (Report.status r = Some f)) as [Heq|Hne].
  - apply field_eq_true in Heq. by rewrite Heq.
  - rewrite <- field_eq_true in Hne. by destruct (field_eq (Report.status r) f).
Qed.

(** C8: under the 'All' selector [filteredReports] is the whole list as it
    stands; under any other selector it is the list filtered by "status
    equals the selector": a sublist of the list (same relative order) whose
    members are exactly the reports of the list with that status.  Choosing
    a selector changes neither the list nor the storage. *)
Theorem filteredReports_selects (w : State) (f : jsstring) :
  (State.filter w = lit "All" → filteredReports w = State.reports w)
  ∧ (State.filter w = f → f ≠ lit "All" →
     filteredReports w = filter (fun r => Report.status r = Some f) (State.reports w)
     ∧ filteredReports w `sublist_of` State.reports w
     ∧ ∀ r, r ∈ filteredReports w ↔ r ∈ State.reports w ∧ Report.status r = Some f)
  ∧ State.reports (setFilter f w) = State.reports w
  ∧ State.storage (setFilter f w) = State.storage w
  ∧ State.filter (setFilter f w) = f.
Proof.
  split; [|split; [|repeat split]].
  - intros Hall. unfold filteredReports. rewrite Hall.
    unfold strict_eq. rewrite bool_decide_eq_true_2 by reflexivity.
    induction (State.reports w) as [|r l IH]; [reflexivity|]. simpl. by rewrite IH.
  - intros Hf Hne.
    assert (Heq : filteredReports w
                  = filter (fun r => Report.status r = Some f) (State.reports w)).
    { unfold filteredReports. rewrite Hf.
      unfold strict_eq at 1. rewrite bool_decide_eq_false_2 by assumption.
      apply filter_by_status. }
    rewrite Heq. split; [reflexivity|]. split.
    + apply sublist_filter.
    + intros r. rewrite list_elem_of_filter. tauto.
Qed.

Lemma filteredReports_selects_witness :
  filteredReports
    (setFilter (lit "Resolved")
       (Sample.listing [Sample.streetlight (Some (lit "Resolved")); Sample.pothole None;
                        Sample.pothole (Some (lit "Resolved"))]))
  = filter (fun r => Report.status r = Some (lit "Resolved"))
      [Sample.streetlight (Some (lit "Resolved")); Sample.pothole None;
       Sample.pothole (Some (lit "Resolved"))].
Proof.
  assert (Hne : lit "Resolved" ≠ lit "All") by discriminate.
  destruct (filteredReports_selects
              (setFilter (lit "Resolved")
                 (Sample.listing [Sample.streetlight (Some (lit "Resolved")); Sample.pothole None;
                                  Sample.pothole (Some (lit "Resolved"))]))
              (lit "Resolved")) as (_ & Hsel & _).
  destruct (Hsel eq_refl Hne) as (Heq & _).
  exact Heq.
Defined.

(** ** What advancing keeps *)

(** C9: [advanceStatus id] keeps the length of the list and, at every
    place, the report's id, photo, location, description, creation time and
    department; a report with another id is kept whole, so only the status
    of the reports with that id can differ. *)
Theorem advanceStatus_frame J env (w : State) (id : jsstring) (k : nat) (r : Report) :
  State.reports w !! k = Some r →
  length (State.reports (after (advanceStatus J env id w))) = length (State.reports w)
  ∧ ∃ r', State.reports (after (advanceStatus J env id w)) !! k = Some r'
          ∧ Report.id r' = Report.id r
          ∧ Report.photoUri r' = Report.photoUri r
          ∧ Report.location r' = Report.location r
          ∧ Report.description r' = Report.description r
          ∧ Report.createdAt r' = Report.createdAt r
          ∧ Report.department r' = Report.department r
          ∧ (Report.id r ≠ id → r' = r)
          ∧ (Report.id r = id → r' = advance r).
Proof.
  intros Hk. split.
  - rewrite advanceStatus_run, saveReports_reports. simpl. apply length_fmap.
  - rewrite advanceStatus_lookup, Hk. simpl. unfold strict_eq.
    destruct (decide (Report.id r = id)) as [Heq|Hne].
    + rewrite bool_decide_eq_true_2 by assumption.
      exists (advance r). repeat split; try reflexivity. congruence.
    + rewrite bool_decide_eq_false_2 by assumption.
      exists r. repeat split; try reflexivity. congruence.
Qed.

Lemma advanceStatus_frame_witness :
  State.reports
    (Sample.listing [Sample.streetlight None; Sample.pothole (Some (lit "Acknowledged"))])
    !! 1%nat
  = Some (Sample.pothole (Some (lit "Acknowledged")))
  ∧ ∃ r', State.reports
            (after (advanceStatus RefJSON.codec Sample.online (lit "1700000000000")
                      (Sample.listing [Sample.streetlight None;
                                       Sample.pothole (Some (lit "Acknowledged"))]))) !! 1%nat
          = Some r'
          ∧ Report.department r' = Some (lit "Unassigned").
Proof.
  split; [reflexivity|].
  destruct (advanceStatus_frame RefJSON.codec Sample.online
              (Sample.listing [Sample.streetlight None;
                               Sample.pothole (Some (lit "Acknowledged"))])
              (lit "1700000000000") 1 (Sample.pothole (Some (lit "Acknowledged"))) eq_refl)
    as (_ & r' & Hr' & _ & _ & _ & _ & _ & Hdept & _).
  exists r'. split; [exact Hr' | exact Hdept].
Defined.

(** ** A status outside the workflow *)

Lemma indexOf_from_absent (arr : list jsstring) (x : jsstring) (i : Z) :
  x ∉ arr → indexOf_from arr x i = -1.
Proof.
  revert i. induction arr as [|y arr IH]; intros i Hx; [reflexivity|].
  apply not_elem_of_cons in Hx as [Hne Hx]. simpl.
  unfold strict_eq. rewrite bool_decide_eq_false_2 by congruence. by apply IH.
Qed.

(** C10, as the code has it: [advanceStatus] takes a report whose status is
    absent, or the empty string, for a 'Reported' one and makes it
    'Acknowledged'; a status that is a non-empty string outside the four of
    the workflow becomes 'Reported'. *)
Theorem advance_outside_workflow J env (w : State) (id : jsstring) (k : nat) (r : Report) :
  State.reports w !! k = Some r →
  Report.id r = id →
  ∃ r', State.reports (after (advanceStatus J env id w)) !! k = Some r'
        ∧ (Report.status r = None ∨ Report.status r = Some [] →
           Report.status r' = Some (lit "Acknowledged"))
        ∧ (∀ s, Report.status r = Some s → s ≠ [] → s ∉ order →
           Report.status r' = Some (lit "Reported")).
Proof.
  intros Hk Hid. exists (advance r). split; [|split].
  - rewrite advanceStatus_lookup, Hk. simpl.
    unfold strict_eq. by rewrite bool_decide_eq_true_2.
  - intros [Hs|Hs]; unfold advance; rewrite Hs; reflexivity.
  - intros s Hs Hne Hout. unfold advance. rewrite Hs. simpl.
    destruct s as [|c s]; [congruence|]. simpl.
    unfold indexOf. rewrite indexOf_from_absent by assumption. reflexivity.
Qed.

Lemma advance_outside_workflow_witness :
  State.reports (Sample.listing [Sample.pothole (Some (lit "Escalated"))]) !! 0%nat
  = Some (Sample.pothole (Some (lit "Escalated")))
  ∧ ∃ r', State.reports
            (after (advanceStatus RefJSON.codec Sample.online (lit "1700000000000")
                      (Sample.listing [Sample.pothole (Some (lit "Escalated"))]))) !! 0%nat
          = Some r'
          ∧ Report.status r' = Some (lit "Reported").
Proof.
  split; [reflexivity|].
  destruct (advance_outside_workflow RefJSON.codec Sample.online
              (Sample.listing [Sample.pothole (Some (lit "Escalated"))])
              (lit "1700000000000") 0 (Sample.pothole (Some (lit "Escalated")))
              eq_refl eq_refl) as (r' & Hr' & _ & Hunknown).
  exists r'. split; [exact Hr'|].
  apply (Hunknown (lit "Escalated")); [reflexivity | discriminate |].
  unfold order. rewrite !not_elem_of_cons. repeat split; try discriminate.
  apply not_elem_of_nil.
Defined.

(** C10 fails as stated: the empty string is a string outside the four of
    the workflow, and advancing a report that has it for status gives
    'Acknowledged', not 'Reported'. *)
Lemma empty_status_is_acknowledged :
  Report.status <$> State.reports
    (after (advanceStatus RefJSON.codec Sample.online (lit "1700000000000")
              (Sample.listing [Sample.pothole (Some [])])))
  = [Some (lit "Acknowledged")]
  ∧ ([] ∉ order)
  ∧ lit "Acknowledged" ≠ lit "Reported".
Proof.
  split; [vm_compute; reflexivity|]. split; [|discriminate].
  unfold order. rewrite !not_elem_of_cons. repeat split; try discriminate.
  apply not_elem_of_nil.
Qed.

(** * Further properties of the component *)

(** ** Loading *)

Lemma loadReports_run J env w :
  loadReports J env w =
  if getItem_ok env then
    match State.storage w !! REPORTS_KEY with
    | Some text =>
        if truthy text then
          match JSON.parse J text with
          | Some parsed => (inr tt, setReports parsed w, [])
          | None => (inr tt, w, [console_warn (lit "Failed to load reports:") JSONError])
          end
        else (inr tt, w, [])
    | None => (inr tt, w, [])
    end
  else (inr tt, w, [console_warn (lit "Failed to load reports:") StorageError]).
Proof.
  run. destruct (getItem_ok env); simpl; [|reflexivity].
  destruct (State.storage w !! REPORTS_KEY) as [text|]; simpl; [|reflexivity].
  destruct (truthy text); simpl; [|reflexivity].
  destruct (JSON.parse J text); reflexivity.
Qed.

(** X1: with nothing stored under the key, or the empty string, a
    readable storage makes [loadReports] a silent no-op: the state is what
    it was and nothing is logged. *)
Theorem loadReports_missing_entry J env (w : State) :
  getItem_ok env = true →
  State.storage w !! REPORTS_KEY = None ∨ State.storage w !! REPORTS_KEY = Some [] →
  loadReports J env w = (inr tt, w, []).
Proof.
  intros Hget Hentry. rewrite loadReports_run, Hget.
  destruct Hentry as [-> | ->]; reflexivity.
Qed.

Lemma loadReports_missing_entry_witness :
  State.storage (Sample.listing [Sample.pothole None]) !! REPORTS_KEY = None
  ∧ loadReports RefJSON.codec Sample.online (Sample.listing [Sample.pothole None])
    = (inr tt, Sample.listing [Sample.pothole None], []).
Proof.
  split; [reflexivity|].
  apply (loadReports_missing_entry RefJSON.codec Sample.online
           (Sample.listing [Sample.pothole None]) eq_refl (or_introl eq_refl)).
Defined.

(** X2: when the read is rejected, or the stored text is non-empty and
    does not parse, [loadReports] keeps the whole state, ends normally and
    logs exactly one 'Failed to load reports:' warning. *)
Theorem loadReports_failure_warns J env (w : State) :
  getItem_ok env = false
  ∨ (∃ text, State.storage w !! REPORTS_KEY = Some text ∧ text ≠ []
             ∧ JSON.parse J text = None) →
  after (loadReports J env w) = w
  ∧ outcome (loadReports J env w) = inr tt
  ∧ ∃ e, shown (loadReports J env w) = [console_warn (lit "Failed to load reports:") e].
Proof.
  intros Hfail. rewrite loadReports_run.
  destruct (getItem_ok env).
  - destruct Hfail as [Hget | (text & -> & Hne & ->)]; [discriminate|].
    destruct text as [|c text]; [congruence|]. simpl. eauto.
  - eauto.
Qed.

Lemma loadReports_failure_warns_witness :
  RefJSON.parse (lit "[{") = None
  ∧ after (loadReports RefJSON.codec Sample.online
             (setStorage {[ REPORTS_KEY := lit "[{" ]} (Sample.listing [Sample.pothole None])))
    = setStorage {[ REPORTS_KEY := lit "[{" ]} (Sample.listing [Sample.pothole None]).
Proof.
  assert (Hparse : RefJSON.parse (lit "[{") = None) by reflexivity.
  split; [exact Hparse|].
  assert (Hne : lit "[{" ≠ []) by discriminate.
  assert (Hentry : State.storage
                     (setStorage {[ REPORTS_KEY := lit "[{" ]}
                        (Sample.listing [Sample.pothole None])) !! REPORTS_KEY
                   = Some (lit "[{")) by (vm_compute; reflexivity).
  pose proof (loadReports_failure_warns RefJSON.codec Sample.online
                (setStorage {[ REPORTS_KEY := lit "[{" ]} (Sample.listing [Sample.pothole None]))
                (or_intror (ex_intro _ (lit "[{") (conj Hentry (conj Hne Hparse)))))
    as (Hstate & _).
  exact Hstate.
Defined.

(** X3: [loadReports] never throws, never writes to the storage and never
    touches the form, the filter or the mode; the list it leaves is the one
    before or the one the stored text parses to. *)
Theorem loadReports_only_reads J env (w : State) :
  outcome (loadReports J env w) = inr tt
  ∧ State.storage (after (loadReports J env w)) = State.storage w
  ∧ State.photoUri (after (loadReports J env w)) = State.photoUri w
  ∧ State.location (after (loadReports J env w)) = State.location w
  ∧ State.description (after (loadReports J env w)) = State.description w
  ∧ State.filter (after (loadReports J env w)) = State.filter w
  ∧ State.mode (after (loadReports J env w)) = State.mode w
  ∧ (State.reports (after (loadReports J env w)) = State.reports w
     ∨ ∃ text, State.storage w !! REPORTS_KEY = Some text
               ∧ JSON.parse J text = Some (State.reports (after (loadReports J env w)))).
Proof.
  rewrite loadReports_run.
  destruct (getItem_ok env); [|repeat split; by left].
  destruct (State.storage w !! REPORTS_KEY) as [text|]; [|repeat split; by left].
  destruct (truthy text); [|repeat split; by left].
  destruct (JSON.parse J text) as [parsed|] eqn:Hparse; [|repeat split; by left].
  repeat split. right. exists text. split; [reflexivity | exact Hparse].
Qed.

(** X4: loading twice is loading once. *)
Theorem loadReports_idempotent J env (w : State) :
  after (loadReports J env (after (loadReports J env w))) = after (loadReports J env w).
Proof.
  rewrite (loadReports_run J env w).
  destruct (getItem_ok env) eqn:Hget;
    [|unfold after at 2 3; simpl; rewrite loadReports_run, Hget; reflexivity].
  destruct (State.storage w !! REPORTS_KEY) as [text|] eqn:Hentry;
    [|unfold after at 2 3; simpl; rewrite loadReports_run, Hget, Hentry; reflexivity].
  destruct (truthy text) eqn:Htext;
    [|unfold after at 2 3; simpl; rewrite loadReports_run, Hget, Hentry, Htext; reflexivity].
  destruct (JSON.parse J text) as [parsed|] eqn:Hparse;
    unfold after at 2 3; simpl; rewrite loadReports_run, Hget; simpl;
    rewrite Hentry, Htext, Hparse; reflexivity.
Qed.

(** ** Memory and storage *)

(** Whether the operation reaches [saveReports]: all do, but a submit that
    the form guard turns down. *)
Lemma perform_storage_saved J env (op : Mutation) (w : State) :
  (op = Submit → incomplete w = false) →
  State.storage (after (perform J env op w))
  = storedAfterSave J env (nextReports env op w) (State.storage w).
Proof.
  intros Hsaved. rewrite perform_storage.
  destruct op; try reflexivity. by rewrite (Hsaved eq_refl).
Qed.

(** X5: when an operation's write goes through, the stored entry is the
    JSON text of the list the operation left in memory: the two agree. *)
Theorem saved_operation_in_sync J env (op : Mutation) (w : State) :
  setItem_ok env = true →
  (op = Submit → incomplete w = false) →
  is_Some (JSON.stringify J (nextReports env op w)) →
  inSync J (after (perform J env op w)).
Proof.
  intros Hset Hsaved [text Htext]. exists text.
  rewrite perform_reports, perform_storage_saved by assumption.
  unfold storedAfterSave. rewrite Htext, Hset.
  split; [reflexivity | apply lookup_insert_eq].
Qed.

Lemma saved_operation_in_sync_witness :
  setItem_ok Sample.online = true
  ∧ inSync RefJSON.codec
      (after (perform RefJSON.codec Sample.online (Advance (lit "1700000000000"))
                (Sample.listing [Sample.pothole (Some (lit "Reported"))]))).
Proof.
  split; [reflexivity|].
  apply (saved_operation_in_sync RefJSON.codec Sample.online (Advance (lit "1700000000000"))
           (Sample.listing [Sample.pothole (Some (lit "Reported"))]) eq_refl).
  - discriminate.
  - vm_compute. eexists. reflexivity.
Defined.



(** X7: the operations write no storage entry but the one under
    [REPORTS_KEY], and none changes the filter, the mode or the loading
    flag; the form is changed by submit only. *)
Theorem operation_frame J env (op : Mutation) (w : State) (key : jsstring) :
  key ≠ REPORTS_KEY →
  State.storage (after (perform J env op w)) !! key = State.storage w !! key
  ∧ State.filter (after (perform J env op w)) = State.filter w
  ∧ State.mode (after (perform J env op w)) = State.mode w
  ∧ State.loading (after (perform J env op w)) = State.loading w
  ∧ (op ≠ Submit →
     State.photoUri (after (perform J env op w)) = State.photoUri w
     ∧ State.location (after (perform J env op w)) = State.location w
     ∧ State.description (after (perform J env op w)) = State.description w).
Proof.
  intros Hkey.
  assert (Hsave : ∀ l,
    State.storage (after (saveReports J env l w)) !! key = State.storage w !! key
    ∧ State.filter (after (saveReports J env l w)) = State.filter w
    ∧ State.mode (after (saveReports J env l w)) = State.mode w
    ∧ State.loading (after (saveReports J env l w)) = State.loading w
    ∧ State.photoUri (after (saveReports J env l w)) = State.photoUri w
    ∧ State.location (after (saveReports J env l w)) = State.location w
    ∧ State.description (after (saveReports J env l w)) = State.description w).
  { intros l. rewrite saveReports_run.
    destruct (JSON.stringify J l); [destruct (setItem_ok env)|]; unfold after; simpl;
      repeat split. by apply lookup_insert_ne. }
  destruct op; simpl.
  - rewrite handleSubmit_run. destruct (incomplete w); [repeat split; congruence|].
    destruct (Hsave (newReport env w :: State.reports w)) as (H1 & H2 & H3 & H4 & _).
    unfold after at 1 2 3 4. simpl. repeat split; try assumption; congruence.
  - rewrite advanceStatus_run.
    destruct (Hsave (nextReports env (Advance id) w)) as (? & ? & ? & ? & ? & ? & ?).
    repeat split; assumption.
  - rewrite assignDept_run.
    destruct (Hsave (nextReports env (Assign id dept) w)) as (? & ? & ? & ? & ? & ? & ?).
    repeat split; assumption.
  - rewrite deleteReport_run.
    destruct (Hsave (nextReports env (Remove id) w)) as (? & ? & ? & ? & ? & ? & ?).
    repeat split; assumption.
  - rewrite clearAll_run.
    destruct (Hsave []) as (? & ? & ? & ? & ? & ? & ?).
    repeat split; assumption.
Qed.

Lemma operation_frame_witness :
  lit "theme" ≠ REPORTS_KEY
  ∧ State.storage
      (after (perform RefJSON.codec Sample.online Clear
                (setStorage {[ lit "theme" := lit "dark" ]} Sample.form))) !! lit "theme"
    = Some (lit "dark").
Proof.
  assert (Hkey : lit "theme" ≠ REPORTS_KEY) by discriminate.
  split; [exact Hkey|].
  pose proof (operation_frame RefJSON.codec Sample.online Clear
                (setStorage {[ lit "theme" := lit "dark" ]} Sample.form)
                (lit "theme") Hkey) as (Hdisk & _).
  rewrite Hdisk. vm_compute. reflexivity.
Defined.

(** X8: once memory and storage agree, advancing, assigning or deleting an
    id that no report has, with a storage that takes the write, changes
    nothing at all: the state after is the state before. *)
Theorem absent_id_in_sync_noop J env (w : State) (id dept : jsstring) (op : Mutation) :
  inSync J w →
  setItem_ok env = true →
  ¬ hasId id (State.reports w) →
  op ∈ [Advance id; Assign id dept; Remove id] →
  after (perform J env op w) = w.
Proof.
  intros (text & Htext & Hentry) Hset Hid Hop.
  assert (Hsame : nextReports env op w = State.reports w).
  { rewrite !elem_of_cons, elem_of_nil in Hop.
    destruct Hop as [->|[->|[->|[]]]]; simpl;
      [by apply map_absent_id | by apply map_absent_id | by apply filter_absent_id]. }
  assert (Hsave : after (saveReports J env (nextReports env op w) w) = w).
  { rewrite saveReports_run, Hsame, Htext, Hset. unfold after. simpl.
    rewrite (insert_id _ _ _ Hentry). by destruct w. }
  rewrite !elem_of_cons, elem_of_nil in Hop.
  destruct Hop as [->|[->|[->|[]]]]; simpl.
  - by rewrite advanceStatus_run.
  - by rewrite assignDept_run.
  - by rewrite deleteReport_run.
Qed.

Lemma absent_id_in_sync_noop_witness :
  inSync RefJSON.codec Demo.synced
  ∧ after (perform RefJSON.codec Sample.later (Remove (lit "nope")) Demo.synced) = Demo.synced.
Proof.
  assert (Hsync : inSync RefJSON.codec Demo.synced).
  { eexists. split; vm_compute; reflexivity. }
  split; [exact Hsync|].
  apply (absent_id_in_sync_noop RefJSON.codec Sample.later Demo.synced (lit "nope") (lit "Roads")
           (Remove (lit "nope")) Hsync eq_refl).
  - assert (Hlist : State.reports Demo.synced
                    = [Sample.streetlight (Some (lit "Resolved"));
                       Sample.pothole (Some (lit "Reported"))]) by (vm_compute; reflexivity).
    unfold hasId. rewrite Hlist. simpl. rewrite !elem_of_cons, elem_of_nil.
    intros [H|[H|[]]]; discriminate.
  - right. right. left.
Defined.

(** ** Ids *)

Lemma List_filter_sublist {A} (p : A → bool) (l : list A) : List.filter p l `sublist_of` l.
Proof.
  induction l as [|x l IH]; simpl; [constructor|].
  destruct (p x); by constructor.
Qed.

Lemma List_filter_elem_of {A} (p : A → bool) (l : list A) (x : A) :
  x ∈ List.filter p l ↔ x ∈ l ∧ p x = true.
Proof.
  rewrite !list_elem_of_In. apply filter_In.
Qed.

(** Rewriting reports in place, by a function that keeps the id, keeps the
    ids of the list. *)
Lemma ids_map_matching (f : Report → Report) (id : jsstring) (l : list Report) :
  (∀ r, Report.id (f r) = Report.id r) →
  Report.id <$> ((fun r => if Report.id r === id then f r else r) <$> l) = Report.id <$> l.
Proof.
  intros Hf. rewrite <- list_fmap_compose. apply list_fmap_ext.
  intros _ r _. simpl. destruct (Report.id r === id); [apply Hf | reflexivity].
Qed.

(** X9: the ids of the list stay pairwise distinct under every operation,
    provided a submit finds the numeral of its clock reading unused. *)
Theorem ids_stay_unique J env (op : Mutation) (w : State) :
  NoDup (Report.id <$> State.reports w) →
  (op = Submit → incomplete w = false →
   ¬ hasId (Number_toString (Date_now env)) (State.reports w)) →
  NoDup (Report.id <$> State.reports (after (perform J env op w))).
Proof.
  intros Hnodup Hfresh. rewrite perform_reports. destruct op; simpl.
  - destruct (incomplete w) eqn:Hguard; [assumption|].
    rewrite fmap_cons. apply NoDup_cons. split; [|assumption].
    by apply Hfresh.
  - by rewrite ids_map_matching.
  - by rewrite ids_map_matching.
  - apply (sublist_NoDup _ (Report.id <$> State.reports w));
      first [exact Hnodup | apply fmap_sublist, List_filter_sublist].
  - constructor.
Qed.

Lemma ids_stay_unique_witness :
  NoDup (Report.id <$> State.reports
           (Sample.listing [Sample.streetlight None; Sample.pothole None]))
  ∧ NoDup (Report.id <$> State.reports
             (after (perform RefJSON.codec Sample.online (Advance (lit "1700000000000"))
                       (Sample.listing [Sample.streetlight None; Sample.pothole None])))).
Proof.
  assert (Hnodup : NoDup (Report.id <$> State.reports
                            (Sample.listing [Sample.streetlight None; Sample.pothole None]))).
  { simpl. apply NoDup_cons. split.
    - rewrite list_elem_of_singleton. discriminate.
    - apply NoDup_singleton. }
  split; [exact Hnodup|].
  apply (ids_stay_unique RefJSON.codec Sample.online (Advance (lit "1700000000000"))
           (Sample.listing [Sample.streetlight None; Sample.pothole None]) Hnodup).
  discriminate.
Defined.

Lemma length_filter_unique_id (id : jsstring) (l : list Report) :
  NoDup (Report.id <$> l) → hasId id l →
  S (length (List.filter (fun r => negb (Report.id r === id)) l)) = length l.
Proof.
  unfold hasId. induction l as [|r l IH]; intros Hnodup Hid.
  - by apply elem_of_nil in Hid.
  - rewrite fmap_cons in Hnodup, Hid. apply NoDup_cons in Hnodup as [Hr Hnodup].
    simpl. unfold strict_eq at 1.
    destruct (decide (Report.id r = id)) as [Heq|Hne].
    + rewrite bool_decide_eq_true_2 by assumption. simpl.
      rewrite filter_absent_id; [reflexivity|]. unfold hasId. congruence.
    + rewrite bool_decide_eq_false_2 by assumption. simpl.
      rewrite IH; [reflexivity | assumption |].
      apply elem_of_cons in Hid as [Hid|Hid]; [congruence | assumption].
Qed.

(** X10: a confirmed [deleteReport id] leaves no report with that id and
    keeps exactly the other reports, in their order; when ids are pairwise
    distinct and the id is in the list, the list gets one shorter.  A
    cancelled one shows the dialog and changes nothing. *)
Theorem deleteReport_removes J env (w : State) (id : jsstring) :
  ¬ hasId id (State.reports (after (deleteReport J env id true w)))
  ∧ State.reports (after (deleteReport J env id true w)) `sublist_of` State.reports w
  ∧ (∀ r, r ∈ State.reports (after (deleteReport J env id true w))
          ↔ r ∈ State.reports w ∧ Report.id r ≠ id)
  ∧ (NoDup (Report.id <$> State.reports w) → hasId id (State.reports w) →
     S (length (State.reports (after (deleteReport J env id true w))))
     = length (State.reports w))
  ∧ deleteReport J env id false w
    = (inr tt, w, [Alert_alert (lit "Delete report") (lit "Are you sure?")]).
Proof.
  pose proof (perform_reports J env (Remove id) w) as Hlist. simpl in Hlist.
  rewrite Hlist.
  assert (Hmem : ∀ r, r ∈ List.filter (fun r => negb (Report.id r === id)) (State.reports w)
                      ↔ r ∈ State.reports w ∧ Report.id r ≠ id).
  { intros r. rewrite List_filter_elem_of, negb_true_iff.
    unfold strict_eq. by rewrite bool_decide_eq_false. }
  split; [|split; [|split; [|split]]].
  - unfold hasId. intros Hin. apply list_elem_of_fmap in Hin as (r & Hr & Hin).
    apply Hmem in Hin as [_ Hne]. congruence.
  - apply List_filter_sublist.
  - exact Hmem.
  - apply length_filter_unique_id.
  - reflexivity.
Qed.

(** X11: when the ids of the list are the numerals of the clock readings
    [stamps] and the clock now shows a reading that is not among them, the
    report the form would submit has an id that no report of the list has. *)
Theorem fresh_clock_fresh_id env (w : State) (stamps : list Z) :
  Report.id <$> State.reports w = Number_toString <$> stamps →
  Date_now env ∉ stamps →
  ¬ hasId (Report.id (newReport env w)) (State.reports w).
Proof.
  intros Hids Hnew. unfold hasId. rewrite Hids. simpl.
  intros Hin. apply list_elem_of_fmap in Hin as (stamp & Heq & Hin).
  apply Number_toString_inj in Heq. congruence.
Qed.

Lemma fresh_clock_fresh_id_witness :
  (Date_now Sample.later ∉ [1700000000000])
  ∧ ¬ hasId (Report.id (newReport Sample.later (Sample.listing [Sample.pothole None])))
        (State.reports (Sample.listing [Sample.pothole None])).
Proof.
  assert (Hnew : Date_now Sample.later ∉ [1700000000000]).
  { rewrite list_elem_of_singleton. discriminate. }
  split; [exact Hnew|].
  apply (fresh_clock_fresh_id Sample.later (Sample.listing [Sample.pothole None])
           [1700000000000] eq_refl Hnew).
Defined.

(** ** Operations one after another *)

Lemma advanceStatus_reports J env id w :
  State.reports (after (advanceStatus J env id w))
  = (fun r => if Report.id r === id then advance r else r) <$> State.reports w.
Proof. rewrite advanceStatus_run. apply saveReports_reports. Qed.

Lemma assignDept_reports J env id dept w :
  State.reports (after (assignDept J env id dept w))
  = (fun r => if Report.id r === id then Report.with_department dept r else r)
      <$> State.reports w.
Proof. rewrite assignDept_run. apply saveReports_reports. Qed.

(** X12: advancing one id and assigning a department to another (or the
    same) id give the same list in either order, whatever the saves do. *)
Theorem advance_assign_commute J e1 e2 e3 e4 (w : State) (a b dept : jsstring) :
  State.reports (after (assignDept J e2 b dept (after (advanceStatus J e1 a w))))
  = State.reports (after (advanceStatus J e4 a (after (assignDept J e3 b dept w)))).
Proof.
  rewrite assignDept_reports, advanceStatus_reports, advanceStatus_reports, assignDept_reports.
  rewrite <- !list_fmap_compose. apply list_fmap_ext. intros _ r _. simpl.
  destruct (Report.id r === a) eqn:Ha; destruct (Report.id r === b) eqn:Hb;
    simpl; rewrite ?Ha, ?Hb; reflexivity.
Qed.

(** X13: of two departments assigned to the same id the later one stays:
    the list is the one a single assignment of the later gives. *)
Theorem assign_last_wins J e1 e2 e3 (w : State) (id d1 d2 : jsstring) :
  State.reports (after (assignDept J e2 id d2 (after (assignDept J e1 id d1 w))))
  = State.reports (after (assignDept J e3 id d2 w)).
Proof.
  rewrite !assignDept_reports, <- list_fmap_compose.
  apply list_fmap_ext. intros _ r _. simpl.
  destruct (Report.id r === id) eqn:Hid; simpl; rewrite Hid; reflexivity.
Qed.

Lemma saveReports_begin_run J l w :
  saveReports_begin J l w =
  match JSON.stringify J l with
  | Some text => (inr (Some text), setReports l w, [])
  | None => (inr None, setReports l w, [console_warn (lit "Failed to save reports:") JSONError])
  end.
Proof.
  unfold saveReports_begin. run. destruct (JSON.stringify J l); reflexivity.
Qed.

Lemma saveReports_settle_run env pending w :
  saveReports_settle env pending w =
  match pending with
  | Some text =>
      if setItem_ok env
      then (inr tt, setStorage (<[REPORTS_KEY := text]> (State.storage w)) w, [])
      else (inr tt, w, [console_warn (lit "Failed to save reports:") StorageError])
  | None => (inr tt, w, [])
  end.
Proof.
  unfold saveReports_settle. destruct pending; [|reflexivity].
  run. destruct (setItem_ok env); reflexivity.
Qed.

(** The two halves of [saveReports], one after the other, are
    [saveReports]; likewise for [handleSubmit]. *)
Lemma saveReports_split J env l w :
  saveReports J env l w
  = (pending ← saveReports_begin J l; saveReports_settle env pending) w.
Proof.
  rewrite saveReports_run. unfold mbind, M_bind. rewrite saveReports_begin_run.
  destruct (JSON.stringify J l); rewrite saveReports_settle_run;
    [destruct (setItem_ok env)|]; reflexivity.
Qed.

Lemma handleSubmit_split J env w :
  handleSubmit J env w
  = (started ← handleSubmit_begin J env; handleSubmit_finish env started) w.
Proof.
  rewrite handleSubmit_run. unfold handleSubmit_begin, handleSubmit_finish.
  unfold mbind, M_bind, get, tell, modify, mret, M_ret. simpl.
  destruct (incomplete w); [reflexivity|]. simpl.
  rewrite saveReports_run, saveReports_begin_run.
  destruct (JSON.stringify J _); unfold saveReports_settle; run;
    [destruct (setItem_ok env)|]; reflexivity.
Qed.

(** X14: [handleSubmit] empties the form only after the write it awaits,
    and nothing holds the Submit button back meanwhile.  So a second press
    while the first write is pending passes the guard too, and the list gets
    two reports made from the one form, with one id if the clock has not
    moved on.  A press after the first has run to its end finds the form
    empty and is turned down: then one report was added. *)
Theorem second_submit J env env' (w : State) :
  incomplete w = false →
  State.reports (after (submitTwiceOverlapping J env env' w))
  = newReport env' w :: newReport env w :: State.reports w
  ∧ outcome (submitTwiceOverlapping J env env' w) = inr tt
  ∧ (Incomplete_alert ∉ shown (submitTwiceOverlapping J env env' w))
  ∧ Report.photoUri (newReport env' w) = Report.photoUri (newReport env w)
  ∧ Report.location (newReport env' w) = Report.location (newReport env w)
  ∧ Report.description (newReport env' w) = Report.description (newReport env w)
  ∧ (Date_now env' = Date_now env →
     Report.id (newReport env' w) = Report.id (newReport env w))
  ∧ handleSubmit J env' (after (handleSubmit J env w))
    = (inr tt, after (handleSubmit J env w), [Incomplete_alert])
  ∧ State.reports (after (handleSubmit J env' (after (handleSubmit J env w))))
    = newReport env w :: State.reports w.
Proof.
  intros Hok.
  assert (Hoverlap :
    State.reports (after (submitTwiceOverlapping J env env' w))
    = newReport env' w :: newReport env w :: State.reports w
    ∧ outcome (submitTwiceOverlapping J env env' w) = inr tt
    ∧ (Incomplete_alert ∉ shown (submitTwiceOverlapping J env env' w))).
  { assert (Hstill : ∀ l, incomplete (setReports l w) = false) by (intros l; exact Hok).
    unfold submitTwiceOverlapping, handleSubmit_begin, handleSubmit_finish.
    unfold mbind, M_bind, get, tell, modify, mret, M_ret.
    cbn beta iota. rewrite Hok. rewrite saveReports_begin_run.
    destruct (JSON.stringify J (newReport env w :: State.reports w));
      cbn beta iota; rewrite Hstill, saveReports_begin_run;
      change (newReport env' (setReports (newReport env w :: State.reports w) w))
        with (newReport env' w);
      change (State.reports (setReports (newReport env w :: State.reports w) w))
        with (newReport env w :: State.reports w);
      destruct (JSON.stringify J (newReport env' w :: newReport env w :: State.reports w));
      cbn beta iota; rewrite !saveReports_settle_run;
      destruct (setItem_ok env); cbn beta iota; rewrite ?saveReports_settle_run;
      destruct (setItem_ok env'); cbn beta iota;
      (split; [reflexivity|]; split; [reflexivity|]);
      unfold shown; simpl; rewrite ?not_elem_of_cons;
      repeat split; try discriminate; apply not_elem_of_nil. }
  destruct Hoverlap as (Hlist & Hout & Hshown).
  split; [exact Hlist|]. split; [exact Hout|]. split; [exact Hshown|].
  do 3 (split; [reflexivity|]).
  split; [intros Hclock; simpl; by rewrite Hclock|].
  assert (Hempty : incomplete (after (handleSubmit J env w)) = true).
  { rewrite handleSubmit_run, Hok. reflexivity. }
  assert (Hsecond : handleSubmit J env' (after (handleSubmit J env w))
                    = (inr tt, after (handleSubmit J env w), [Incomplete_alert])).
  { rewrite (handleSubmit_run J env' (after (handleSubmit J env w))), Hempty. reflexivity. }
  split; [exact Hsecond|].
  rewrite Hsecond. unfold after at 1. simpl.
  pose proof (perform_reports J env Submit w) as Hone. simpl in Hone.
  by rewrite Hone, Hok.
Qed.

Lemma second_submit_witness :
  incomplete Sample.form = false
  ∧ Report.id <$> State.reports
      (after (submitTwiceOverlapping RefJSON.codec Sample.online Sample.online Sample.form))
    = [lit "1700000000000"; lit "1700000000000"]
  ∧ State.reports
      (after (handleSubmit RefJSON.codec Sample.later
                (after (handleSubmit RefJSON.codec Sample.online Sample.form))))
    = [Sample.pothole (Some (lit "Reported"))].
Proof.
  split; [reflexivity|].
  pose proof (second_submit RefJSON.codec Sample.online Sample.online Sample.form eq_refl)
    as (Hboth & _).
  rewrite Hboth. split; [reflexivity|].
  pose proof (second_submit RefJSON.codec Sample.online Sample.later Sample.form eq_refl)
    as (_ & _ & _ & _ & _ & _ & _ & _ & Hone).
  rewrite Hone. reflexivity.
Defined.

(** Whatever the status was, [advance] leaves one of the four. *)
Lemma advance_status_in_order (r : Report) :
  ∃ s, Report.status (advance r) = Some s ∧ s ∈ order.
Proof.
  unfold advance, indexOf. simpl.
  generalize (or_default (Report.status r) (lit "Reported")). intros x.
  unfold order, indexOf_from.
  repeat match goal with |- context [?a === x] => destruct (a === x) end;
    eexists; (split; [reflexivity|]); rewrite !elem_of_cons; auto 10.
Qed.

(** X15: after [advanceStatus id] every report with that id has one of the
    four statuses of the workflow, whatever it had before (nothing, the
    empty string, something else). *)
Theorem advanceStatus_normalises J env (w : State) (id : jsstring) (k : nat) (r' : Report) :
  State.reports (after (advanceStatus J env id w)) !! k = Some r' →
  Report.id r' = id →
  ∃ s, Report.status r' = Some s ∧ s ∈ order.
Proof.
  rewrite advanceStatus_lookup. intros Hk Hid.
  destruct (State.reports w !! k) as [r|]; [|discriminate].
  simpl in Hk. injection Hk as <-. unfold strict_eq in *.
  destruct (decide (Report.id r = id)) as [Heq|Hne].
  - rewrite bool_decide_eq_true_2 by assumption. apply advance_status_in_order.
  - rewrite bool_decide_eq_false_2 in Hid by assumption. congruence.
Qed.

Lemma advanceStatus_normalises_witness :
  State.reports
    (after (advanceStatus RefJSON.codec Sample.online (lit "1700000000000")
              (Sample.listing [Sample.pothole (Some (lit "Escalated"))]))) !! 0%nat
  = Some (Sample.pothole (Some (lit "Reported")))
  ∧ ∃ s, Report.status (Sample.pothole (Some (lit "Reported"))) = Some s ∧ s ∈ order.
Proof.
  assert (Hk : State.reports
                 (after (advanceStatus RefJSON.codec Sample.online (lit "1700000000000")
                           (Sample.listing [Sample.pothole (Some (lit "Escalated"))]))) !! 0%nat
               = Some (Sample.pothole (Some (lit "Reported")))) by (vm_compute; reflexivity).
  split; [exact Hk|].
  apply (advanceStatus_normalises RefJSON.codec Sample.online
           (Sample.listing [Sample.pothole (Some (lit "Escalated"))])
           (lit "1700000000000") 0 (Sample.pothole (Some (lit "Reported"))) Hk eq_refl).
Defined.

(** ** The dashboard and the filter *)

Lemma filter_count_map {A} (p : A → bool) (f : A → A) (l : list A) :
  (∀ x, p x = true → p (f x) = true) →
  (length (List.filter p l) ≤ length (List.filter p (f <$> l)))%nat.
Proof.
  intros Hp. induction l as [|x l IH]; [reflexivity|].
  rewrite fmap_cons. simpl. destruct (p x) eqn:Hx.
  - rewrite (Hp x Hx). simpl. lia.
  - destruct (p (f x)); simpl; lia.
Qed.

Lemma filteredReports_specific (w : State) (f : jsstring) :
  f ≠ lit "All" →
  filteredReports (setFilter f w)
  = List.filter (fun r => field_eq (Report.status r) f) (State.reports w).
Proof.
  intros Hne. unfold filteredReports. simpl.
  unfold strict_eq at 1. by rewrite bool_decide_eq_false_2.
Qed.

(** X16: the Resolved count of the dashboard is the length of the list
    under the 'Resolved' filter, is at most the total, and never goes down
    when a report is advanced, which also keeps the total. *)
Theorem resolvedCount_monotone J env (w : State) (id : jsstring) :
  resolvedCount w = length (filteredReports (setFilter (lit "Resolved") w))
  ∧ (resolvedCount w ≤ totalReports w)%nat
  ∧ (resolvedCount w ≤ resolvedCount (after (advanceStatus J env id w)))%nat
  ∧ totalReports (after (advanceStatus J env id w)) = totalReports w.
Proof.
  unfold resolvedCount, totalReports. rewrite advanceStatus_reports.
  split; [|split; [|split]].
  - rewrite filteredReports_specific by discriminate. reflexivity.
  - apply sublist_length, List_filter_sublist.
  - apply filter_count_map. intros r Hr.
    destruct (Report.id r === id); [|assumption].
    apply field_eq_true in Hr. apply field_eq_true.
    rewrite (advance_known r 3 (lit "Resolved")); [reflexivity | reflexivity | assumption].
  - apply length_fmap.
Qed.

(** X17: a report without a status (or with the empty one), as the
    earlier version of the app stored them, is listed under 'All' with the
    chip 'Reported', yet under none of the four status filters, not under
    'Reported' either. *)
Theorem unset_status_shown_not_filtered (w : State) (r : Report) (f : jsstring) :
  r ∈ State.reports w →
  Report.status r = None ∨ Report.status r = Some [] →
  f ∈ filterButtons → f ≠ lit "All" →
  statusChip r = lit "Reported"
  ∧ r ∈ filteredReports (setFilter (lit "All") w)
  ∧ r ∉ filteredReports (setFilter f w).
Proof.
  intros Hin Hstatus Hbutton Hne. split; [|split].
  - unfold statusChip. destruct Hstatus as [-> | ->]; reflexivity.
  - unfold filteredReports. simpl. apply List_filter_elem_of. by split.
  - rewrite filteredReports_specific by assumption.
    rewrite List_filter_elem_of, field_eq_true. intros [_ Hf].
    destruct Hstatus as [Hs|Hs]; rewrite Hs in Hf; [discriminate|].
    injection Hf as <-. unfold filterButtons in Hbutton.
    rewrite !elem_of_cons, elem_of_nil in Hbutton.
    destruct Hbutton as [H|[H|[H|[H|[H|[]]]]]]; discriminate.
Qed.

Lemma unset_status_shown_not_filtered_witness :
  Sample.pothole None ∈ State.reports (Sample.listing [Sample.pothole None])
  ∧ statusChip (Sample.pothole None) = lit "Reported"
  ∧ ¬ (Sample.pothole None
       ∈ filteredReports (setFilter (lit "Reported") (Sample.listing [Sample.pothole None]))).
Proof.
  assert (Hin : Sample.pothole None ∈ State.reports (Sample.listing [Sample.pothole None]))
    by (simpl; left).
  split; [exact Hin|].
  assert (Hbutton : lit "Reported" ∈ filterButtons) by (right; left).
  assert (Hne : lit "Reported" ≠ lit "All") by discriminate.
  pose proof (unset_status_shown_not_filtered (Sample.listing [Sample.pothole None])
                (Sample.pothole None) (lit "Reported") Hin (or_introl eq_refl) Hbutton Hne)
    as (Hchip & _ & Hout).
  exact (conj Hchip Hout).
Defined.

(** X18: when every report has one of the four statuses of the workflow,
    the four status filters split the list: their lengths add up to the
    total. *)
Theorem status_filters_partition (w : State) :
  Forall (fun r => ∃ s, Report.status r = Some s ∧ s ∈ order) (State.reports w) →
  sum_list ((fun f => length (filteredReports (setFilter f w))) <$> order)
  = totalReports w.
Proof.
  intros Hall. unfold order, totalReports. simpl.
  rewrite !filteredReports_specific by discriminate.
  induction Hall as [|r l (s & Hs & Hin) Hall IH]; [reflexivity|].
  simpl. rewrite Hs. unfold order in Hin.
  rewrite !elem_of_cons, elem_of_nil in Hin.
  destruct Hin as [->|[->|[->|[->|[]]]]];
    repeat match goal with
    | |- context [field_eq (Some ?a) ?b] =>
        let v := eval vm_compute in (field_eq (Some a) b) in
        change (field_eq (Some a) b) with v
    end;
    simpl; lia.
Qed.

Lemma status_filters_partition_witness :
  Forall (fun r => ∃ s, Report.status r = Some s ∧ s ∈ order) (State.reports Demo.synced)
  ∧ sum_list ((fun f => length (filteredReports (setFilter f Demo.synced))) <$> order)
    = totalReports Demo.synced.
Proof.
  assert (Hall : Forall (fun r => ∃ s, Report.status r = Some s ∧ s ∈ order)
                   (State.reports Demo.synced)).
  { assert (Hlist : State.reports Demo.synced
                    = [Sample.streetlight (Some (lit "Resolved"));
                       Sample.pothole (Some (lit "Reported"))]) by (vm_compute; reflexivity).
    rewrite Hlist. repeat constructor.
    - exists (lit "Resolved"). split; [reflexivity|]. unfold order. rewrite !elem_of_cons. auto 10.
    - exists (lit "Reported"). split; [reflexivity|]. unfold order. rewrite !elem_of_cons. auto 10. }
  split; [exact Hall|].
  apply (status_filters_partition Demo.synced Hall).
Defined.

(** ** The form *)

Lemma or_null_not_empty (o : option jsstring) : or_null o ≠ Some [].
Proof.
  destruct o as [[|c s]|]; simpl; congruence.
Qed.

(** X19: the picker callback never throws and never touches the list or
    the storage; a cancelled pick or one with an error code leaves the whole
    state as it was; and the photo cell never comes to hold the empty
    string. *)
Theorem picker_response_frame (fallback : jsstring) (response : PickerResponse) (w : State) :
  outcome (onPickerResponse fallback response w) = inr tt
  ∧ State.reports (after (onPickerResponse fallback response w)) = State.reports w
  ∧ State.storage (after (onPickerResponse fallback response w)) = State.storage w
  ∧ (didCancel response = true ∨ truthy_opt (errorCode response) = true →
     after (onPickerResponse fallback response w) = w)
  ∧ (State.photoUri w ≠ Some [] →
     State.photoUri (after (onPickerResponse fallback response w)) ≠ Some []).
Proof.
  unfold onPickerResponse.
  destruct (didCancel response); [repeat split; auto|].
  destruct (truthy_opt (errorCode response)); [repeat split; auto|].
  destruct (assets response) as [[|first rest]|]; simpl.
  - repeat split; auto; intros [H|H]; discriminate.
  - repeat split; try (intros [H|H]; discriminate).
    intros _. unfold after. simpl. apply or_null_not_empty.
  - repeat split; auto; intros [H|H]; discriminate.
Qed.

Lemma picker_response_frame_witness :
  truthy_opt (errorCode Demo.failedPick) = true
  ∧ after (handleTakePhoto Demo.failedPick Sample.form) = Sample.form
  ∧ shown (handleTakePhoto Demo.failedPick Sample.form)
    = [Alert_alert (lit "Error") (lit "Camera error")].
Proof.
  split; [reflexivity|].
  destruct (picker_response_frame (lit "Camera error") Demo.failedPick Sample.form)
    as (_ & _ & _ & Hsame & _).
  split; [exact (Hsame (or_intror eq_refl)) | reflexivity].
Defined.

(** X20: picking an asset that carries no uri (or an empty one) clears the
    photo chosen before, and the next Submit is turned down whatever the
    rest of the form holds. *)
Theorem blank_pick_blocks_submit J env (fallback : jsstring) (response : PickerResponse)
    (w : State) (first : Asset) (rest : list Asset) :
  didCancel response = false →
  truthy_opt (errorCode response) = false →
  assets response = Some (first :: rest) →
  uri first = None ∨ uri first = Some [] →
  State.photoUri (after (onPickerResponse fallback response w)) = None
  ∧ handleSubmit J env (after (onPickerResponse fallback response w))
    = (inr tt, after (onPickerResponse fallback response w), [Incomplete_alert]).
Proof.
  intros Hcancel Herror Hassets Huri.
  assert (Hphoto : State.photoUri (after (onPickerResponse fallback response w)) = None).
  { unfold onPickerResponse. rewrite Hcancel, Herror, Hassets. unfold after. simpl.
    destruct Huri as [-> | ->]; reflexivity. }
  split; [exact Hphoto|].
  rewrite handleSubmit_run. unfold incomplete. rewrite Hphoto. reflexivity.
Qed.

Lemma blank_pick_blocks_submit_witness :
  State.photoUri Sample.form = Some (lit "p1")
  ∧ State.photoUri (after (handlePickImage Demo.blankPick Sample.form)) = None
  ∧ handleSubmit RefJSON.codec Sample.online (after (handlePickImage Demo.blankPick Sample.form))
    = (inr tt, after (handlePickImage Demo.blankPick Sample.form), [Incomplete_alert]).
Proof.
  split; [reflexivity|].
  apply (blank_pick_blocks_submit RefJSON.codec Sample.online (lit "Image error")
           Demo.blankPick Sample.form {| uri := None |} [] eq_refl eq_refl eq_refl
           (or_introl eq_refl)).
Defined.

(** X21: on a form that has its photo and its description,
    [handleGetLocation] ends with the loading flag down and decides the next
    Submit.  After a position answer the submit goes through and the new
    report carries that position; after an error answer on a form that had
    no location the submit is turned down, and the error alert shows the
    error's message or, when it has none, 'Unable to get location'. *)
Theorem location_answer_then_submit J env (answer : GeoResult) (w : State) (p : jsstring) :
  State.photoUri w = Some p → p ≠ [] →
  trim (State.description w) ≠ [] →
  State.loading (after (handleGetLocation answer w)) = false
  ∧ match answer with
    | GeoPosition lat lng =>
        State.reports (after (handleSubmit J env (after (handleGetLocation answer w))))
        = newReport env (after (handleGetLocation answer w)) :: State.reports w
        ∧ Report.location (newReport env (after (handleGetLocation answer w)))
          = Some {| latitude := lat; longitude := lng |}
        ∧ shown (handleGetLocation answer w) = []
    | GeoError message =>
        shown (handleGetLocation answer w)
        = [Alert_alert (lit "Location Error")
             (or_default message (lit "Unable to get location"))]
        ∧ State.location (after (handleGetLocation answer w)) = State.location w
        ∧ (State.location w = None →
           handleSubmit J env (after (handleGetLocation answer w))
           = (inr tt, after (handleGetLocation answer w), [Incomplete_alert]))
    end.
Proof.
  intros Hp Hne Hd. destruct answer as [lat lng|message].
  - split; [reflexivity|]. split; [|split; reflexivity].
    assert (Hok : incomplete (after (handleGetLocation (GeoPosition lat lng) w)) = false).
    { apply incomplete_false_iff. repeat split; eauto. }
    pose proof (perform_reports J env Submit (after (handleGetLocation (GeoPosition lat lng) w)))
      as Hlist.
    simpl in Hlist. rewrite Hok in Hlist. exact Hlist.
  - split; [reflexivity|]. split; [reflexivity|]. split; [reflexivity|].
    intros Hnone. rewrite handleSubmit_run.
    assert (Hbad : incomplete (after (handleGetLocation (GeoError message) w)) = true).
    { unfold incomplete, after. simpl. rewrite Hnone. simpl.
      by rewrite orb_true_r. }
    by rewrite Hbad.
Qed.

Lemma location_answer_then_submit_witness :
  State.photoUri (setLocation None Sample.form) = Some (lit "p1")
  ∧ State.reports
      (after (handleSubmit RefJSON.codec Sample.online
                (after (handleGetLocation (GeoPosition 1 2) (setLocation None Sample.form)))))
    = [Sample.pothole (Some (lit "Reported"))].
Proof.
  split; [reflexivity|].
  assert (Hphoto : lit "p1" ≠ []) by discriminate.
  assert (Hdesc : trim (State.description (setLocation None Sample.form)) ≠ [])
    by (vm_compute; discriminate).
  pose proof (location_answer_then_submit RefJSON.codec Sample.online (GeoPosition 1 2)
                (setLocation None Sample.form) (lit "p1") eq_refl Hphoto Hdesc)
    as (_ & Hlist & _).
  rewrite Hlist. reflexivity.
Defined.

Lemma forall_whitespace_trimStart (s : jsstring) :
  trimStart s = [] ↔ Forall (fun c => isWhiteSpace c = true) s.
Proof.
  induction s as [|c s IH]; simpl; [split; [constructor | reflexivity]|].
  destruct (isWhiteSpace c) eqn:Hc.
  - rewrite IH. split; [by constructor | by inversion 1].
  - split; [discriminate|]. inversion 1. congruence.
Qed.

Lemma trimStart_head (s : jsstring) (c : N) (s' : jsstring) :
  trimStart s = c :: s' → isWhiteSpace c = false.
Proof.
  induction s as [|d s IH]; simpl; [discriminate|].
  destruct (isWhiteSpace d) eqn:Hd; [assumption|]. congruence.
Qed.

(** A string trims to the empty one exactly when it is all whitespace. *)
Lemma trim_empty_iff (s : jsstring) :
  trim s = [] ↔ Forall (fun c => isWhiteSpace c = true) s.
Proof.
  unfold trim, trimEnd. split.
  - intros Hempty. apply forall_whitespace_trimStart.
    destruct (trimStart s) as [|c s'] eqn:Hstart; [reflexivity|].
    apply (f_equal (@rev N)) in Hempty. rewrite rev_involutive in Hempty. simpl in Hempty.
    apply forall_whitespace_trimStart in Hempty.
    rewrite Forall_app, Forall_singleton in Hempty. destruct Hempty as [_ Hc].
    apply trimStart_head in Hstart. congruence.
  - intros Hall. apply forall_whitespace_trimStart in Hall. by rewrite Hall.
Qed.

(** X22: [handleSubmit] turns the form down exactly when the photo is
    missing or empty, or the location is missing, or every code unit of the
    description is whitespace (the empty description included). *)
Theorem incomplete_iff (w : State) :
  incomplete w = true ↔
  State.photoUri w = None ∨ State.photoUri w = Some []
  ∨ State.location w = None
  ∨ Forall (fun c => isWhiteSpace c = true) (State.description w).
Proof.
  rewrite <- trim_empty_iff. unfold incomplete.
  rewrite !orb_true_iff, !negb_true_iff, bool_decide_eq_false.
  split.
  - intros [[Hp|Hl]|Hd].
    + destruct (State.photoUri w) as [[|c p]|]; [auto | discriminate | auto].
    + right. right. left. destruct (State.location w); [|reflexivity].
      destruct Hl. eauto.
    + right. right. right. by destruct (trim (State.description w)).
  - intros [Hp|[Hp|[Hl|Hd]]].
    + left. left. by rewrite Hp.
    + left. left. by rewrite Hp.
    + left. right. rewrite Hl. by intros [? ?].
    + right. by rewrite Hd.
Qed.

(** ** The Assign button *)

Lemma onAssignPress_reports J env id t w :
  trim t ≠ [] →
  State.reports (after (onAssignPress J env true id (Some t) w))
  = State.reports (after (assignDept J env id (trim t) w)).
Proof.
  intros Hne. unfold onAssignPress. rewrite truthy_trim by assumption.
  unfold mbind, M_bind, tell.
  destruct (assignDept J env id (trim t) w) as [[o s] log]. reflexivity.
Qed.

Lemma trimStart_suffix (s : jsstring) : ∃ pre, s = pre ++ trimStart s.
Proof.
  induction s as [|c s [pre IH]]; [by exists []|]. simpl.
  destruct (isWhiteSpace c); [|by exists []].
  exists (c :: pre). simpl. by rewrite <- IH.
Qed.

Lemma trimEnd_prefix (s : jsstring) : ∃ suf, s = trimEnd s ++ suf.
Proof.
  unfold trimEnd. destruct (trimStart_suffix (rev s)) as [pre Hpre].
  exists (rev pre). rewrite <- rev_app_distr, <- Hpre. symmetry. apply rev_involutive.
Qed.

(** What [trim] leaves neither starts nor ends with whitespace. *)
Lemma trim_ends (t : jsstring) :
  trim t ≠ [] →
  ∃ first final, head (trim t) = Some first ∧ last (trim t) = Some final
                 ∧ isWhiteSpace first = false ∧ isWhiteSpace final = false.
Proof.
  intros Hne. unfold trim in *.
  destruct (trimEnd (trimStart t)) as [|first body] eqn:Htrim; [congruence|].
  destruct (trimEnd_prefix (trimStart t)) as [suf Hsuf]. rewrite Htrim in Hsuf.
  simpl in Hsuf. apply trimStart_head in Hsuf.
  unfold trimEnd in Htrim.
  destruct (trimStart (rev (trimStart t))) as [|final ydob] eqn:Hrev; [discriminate|].
  apply trimStart_head in Hrev.
  exists first, final. repeat split; try assumption.
  rewrite <- Htrim. simpl. apply last_snoc.
Qed.

(** X23: a department that the prompt of the Assign button sets is never
    empty and neither starts nor ends with whitespace. *)
Theorem prompt_department_trimmed J env (w : State) (id t : jsstring) (k : nat) (r : Report) :
  State.reports w !! k = Some r →
  Report.id r = id →
  trim t ≠ [] →
  ∃ r' d first final,
    State.reports (after (onAssignPress J env true id (Some t) w)) !! k = Some r'
    ∧ Report.department r' = Some d
    ∧ head d = Some first ∧ last d = Some final
    ∧ isWhiteSpace first = false ∧ isWhiteSpace final = false.
Proof.
  intros Hk Hid Hne.
  destruct (trim_ends t Hne) as (first & final & Hhead & Hlast & Hfirst & Hfinal).
  exists (Report.with_department (trim t) r), (trim t), first, final.
  repeat split; try assumption.
  rewrite onAssignPress_reports, assignDept_reports, list_lookup_fmap, Hk by assumption.
  simpl. unfold strict_eq. by rewrite bool_decide_eq_true_2.
Qed.

Lemma prompt_department_trimmed_witness :
  trim (lit "  Public Works ") ≠ []
  ∧ ∃ r' d first final,
      State.reports
        (after (onAssignPress RefJSON.codec Sample.online true (lit "1700000000000")
                  (Some (lit "  Public Works ")) (Sample.listing [Sample.pothole None]))) !! 0%nat
      = Some r'
      ∧ Report.department r' = Some d
      ∧ head d = Some first ∧ last d = Some final
      ∧ isWhiteSpace first = false ∧ isWhiteSpace final = false.
Proof.
  assert (Hne : trim (lit "  Public Works ") ≠ []) by discriminate.
  split; [exact Hne|].
  apply (prompt_department_trimmed RefJSON.codec Sample.online
           (Sample.listing [Sample.pothole None]) (lit "1700000000000")
           (lit "  Public Works ") 0 (Sample.pothole None) eq_refl eq_refl Hne).
Defined.

Lemma assignDept_split J env id dept w :
  assignDept J env id dept w
  = (pending ← assignDept_begin J id dept; saveReports_settle env pending) w.
Proof.
  rewrite assignDept_run, saveReports_split.
  unfold assignDept_begin, mbind, M_bind, get. simpl.
  by destruct (saveReports_begin J _ w) as [[[e|pending] w1] log1].
Qed.

(** X24: where there is no [Alert.prompt], the Assign button does to the
    list and to the storage what the prompt does when 'Public Works' is
    entered, whatever the text, and always shows the 'Assigned' alert, also
    when no report has the id.  The alert comes before the storage has
    answered: a rejected write is warned about after it. *)
Theorem assign_fallback_is_public_works J env (w : State) (id : jsstring)
    (txt : option jsstring) :
  State.reports (after (onAssignPress J env false id txt w))
  = State.reports (after (onAssignPress J env true id (Some (lit "Public Works")) w))
  ∧ State.storage (after (onAssignPress J env false id txt w))
    = State.storage (after (onAssignPress J env true id (Some (lit "Public Works")) w))
  ∧ outcome (onAssignPress J env false id txt w) = inr tt
  ∧ shown (onAssignPress J env false id txt w)
    = match JSON.stringify J (nextReports env (Assign id (lit "Public Works")) w) with
      | None =>
          [console_warn (lit "Failed to save reports:") JSONError;
           Alert_alert (lit "Assigned") (lit "Assigned to Public Works")]
      | Some _ =>
          if setItem_ok env
          then [Alert_alert (lit "Assigned") (lit "Assigned to Public Works")]
          else [Alert_alert (lit "Assigned") (lit "Assigned to Public Works");
                console_warn (lit "Failed to save reports:") StorageError]
      end.
Proof.
  unfold onAssignPress.
  change (trim (lit "Public Works")) with (lit "Public Works").
  change (truthy (lit "Public Works") && truthy (lit "Public Works")) with true.
  unfold assignDept_begin, mbind, M_bind, get, tell, after, shown, outcome.
  cbn beta iota. rewrite assignDept_run, saveReports_run, saveReports_begin_run.
  change (nextReports env (Assign id (lit "Public Works")) w)
    with ((fun r => if Report.id r === id
                    then Report.with_department (lit "Public Works") r else r)
            <$> State.reports w).
  destruct (JSON.stringify J _); cbn beta iota; rewrite saveReports_settle_run;
    [destruct (setItem_ok env)|]; repeat split.
Qed.

(** ** The seed button *)

(** X25: the [+] button puts its demo report in front of the list whatever
    the form holds, never throws, and leaves the form as it is; the report
    takes its id from the clock as a submitted one does, so a submit in the
    same millisecond would get the same id. *)
Theorem seedDemo_prepends J env (w : State) :
  State.reports (after (seedDemo J env w)) = seedReport env :: State.reports w
  ∧ outcome (seedDemo J env w) = inr tt
  ∧ State.storage (after (seedDemo J env w))
    = storedAfterSave J env (seedReport env :: State.reports w) (State.storage w)
  ∧ State.photoUri (after (seedDemo J env w)) = State.photoUri w
  ∧ State.location (after (seedDemo J env w)) = State.location w
  ∧ State.description (after (seedDemo J env w)) = State.description w
  ∧ Report.id (seedReport env) = Report.id (newReport env w).
Proof.
  assert (Hrun : seedDemo J env w = saveReports J env (seedReport env :: State.reports w) w).
  { unfold seedDemo, mbind, M_bind, get. simpl.
    destruct (saveReports J env _ w) as [[o s] log]. reflexivity. }
  rewrite Hrun, saveReports_reports, saveReports_storage, saveReports_outcome.
  rewrite saveReports_run.
  destruct (JSON.stringify J _); [destruct (setItem_ok env)|]; repeat split.
Qed.

(** ** The earlier version *)

Lemma Legacy_saveReports_run J env l w :
  Legacy.saveReports J env l w =
  match JSON.stringify J l with
  | Some text =>
      if setItem_ok env
      then (inr tt, setStorage (<[REPORTS_KEY := text]> (State.storage w)) (setReports l w), [])
      else (inl StorageError, setReports l w, [])
  | None => (inl JSONError, setReports l w, [])
  end.
Proof.
  unfold Legacy.saveReports. run.
  destruct (JSON.stringify J l); simpl; [destruct (setItem_ok env)|]; reflexivity.
Qed.

(** X26: in the earlier version [saveReports] has no [try]: when the write
    is rejected [handleSubmit] throws, the form is not emptied and nothing
    is shown, while the new report is in the in-memory list all the same
    and the storage is untouched. *)
Theorem legacy_failed_save_throws J env (w : State) :
  incomplete w = false →
  setItem_ok env = false →
  (∃ e, outcome (Legacy.handleSubmit J env w) = inl e)
  ∧ State.reports (after (Legacy.handleSubmit J env w))
    = Legacy.newReport env w :: State.reports w
  ∧ State.storage (after (Legacy.handleSubmit J env w)) = State.storage w
  ∧ State.photoUri (after (Legacy.handleSubmit J env w)) = State.photoUri w
  ∧ State.location (after (Legacy.handleSubmit J env w)) = State.location w
  ∧ State.description (after (Legacy.handleSubmit J env w)) = State.description w
  ∧ shown (Legacy.handleSubmit J env w) = [].
Proof.
  intros Hok Hfail.
  unfold Legacy.handleSubmit, mbind, M_bind, get. simpl. rewrite Hok.
  rewrite Legacy_saveReports_run, Hfail.
  destruct (JSON.stringify J _); simpl; repeat split; eauto.
Qed.

Lemma legacy_failed_save_throws_witness :
  incomplete Sample.form = false
  ∧ outcome (Legacy.handleSubmit RefJSON.codec Sample.offline Sample.form) = inl StorageError
  ∧ State.photoUri (after (Legacy.handleSubmit RefJSON.codec Sample.offline Sample.form))
    = State.photoUri Sample.form.
Proof.
  split; [reflexivity|].
  pose proof (legacy_failed_save_throws RefJSON.codec Sample.offline Sample.form
                eq_refl eq_refl) as (_ & _ & _ & Hphoto & _).
  split; [reflexivity | exact Hphoto].
Defined.

(** X27: the two versions load alike: the earlier [loadReports] leaves the
    state the current one leaves, and differs only in logging nothing. *)
Theorem legacy_load_agrees J env (w : State) :
  after (Legacy.loadReports J env w) = after (loadReports J env w)
  ∧ outcome (Legacy.loadReports J env w) = inr tt
  ∧ shown (Legacy.loadReports J env w) = [].
Proof.
  rewrite loadReports_run. unfold Legacy.loadReports. run.
  destruct (getItem_ok env); simpl; [|repeat split].
  destruct (State.storage w !! REPORTS_KEY) as [text|]; simpl; [|repeat split].
  destruct (truthy text); simpl; [|repeat split].
  destruct (JSON.parse J text); repeat split.
Qed.

(** X28: a report submitted with the earlier version has no status; the
    current version shows it as 'Reported', and its first Advance makes it
    'Acknowledged', whether or not the earlier save was written. *)
Theorem legacy_report_advances J env env' (w : State) :
  incomplete w = false →
  statusChip (Legacy.newReport env w) = lit "Reported"
  ∧ head (State.reports
            (after (advanceStatus J env' (Number_toString (Date_now env))
                      (after (Legacy.handleSubmit J env w)))))
    = Some (Report.with_status (Some (lit "Acknowledged")) (Legacy.newReport env w)).
Proof.
  intros Hok. split; [reflexivity|].
  rewrite advanceStatus_reports.
  assert (Hlist : State.reports (after (Legacy.handleSubmit J env w))
                  = Legacy.newReport env w :: State.reports w).
  { unfold Legacy.handleSubmit, mbind, M_bind, get. simpl. rewrite Hok.
    rewrite Legacy_saveReports_run.
    destruct (JSON.stringify J _); [destruct (setItem_ok env)|]; reflexivity. }
  rewrite Hlist, fmap_cons. simpl.
  unfold strict_eq. rewrite bool_decide_eq_true_2 by reflexivity. reflexivity.
Qed.

Lemma legacy_report_advances_witness :
  incomplete Sample.form = false
  ∧ head (State.reports
            (after (advanceStatus RefJSON.codec Sample.later
                      (Number_toString (Date_now Sample.online))
                      (after (Legacy.handleSubmit RefJSON.codec Sample.online Sample.form)))))
    = Some (Report.with_status (Some (lit "Acknowledged"))
              (Legacy.newReport Sample.online Sample.form)).
Proof.
  split; [reflexivity|].
  pose proof (legacy_report_advances RefJSON.codec Sample.online Sample.later Sample.form eq_refl)
    as [_ Hhead].
  exact Hhead.
Defined.
